(** * Voyager explorer: derivatives, asset loading, scene and reader

    A shallow embedding of the TypeScript sources

    - [Derivative] (usage/quality enumerations, constructor, [dispose],
      [load], [addAsset], [toData], [findAsset], [findAssets],
      [assignTextures], [disposeMesh]),
    - [CVAssetLoader.ts] ([PrivateLoadingManager] and its four callbacks),
    - [CVScene] ([update], [fromDocument], [onModelComponent],
      [updateModelBoundingBox]),
    - [CVReader] ([fromData]),

    followed by the properties proved about them.

    Conventions.  A mutable object is a record threaded through the
    functions that mutate it.  A promise is the way it settles.  Calls
    into collaborators that only have an effect (loader requests,
    [dispose()] of GPU resources, [emit]) are recorded in a trace.
    JavaScript [null] and [undefined] in a texture slot are both the
    absent value [None]. *)

From stdpp Require Import base list strings pretty.
From Stdlib Require Import ZArith QArith Lia.

Close Scope Q_scope.

(** ** JavaScript values and TypeScript enumeration objects *)

Module JS.

(** The values an enumeration lookup [E[key]] can produce: [undefined],
    a member index, a member name (reverse mapping), or something
    inherited from [Object.prototype] (a function or an object). *)
Inductive value : Type :=
| Undefined
| Num (n : nat)
| Str (s : string)
| Inherited.

#[global] Instance value_eq_dec : EqDecision value.
Proof. solve_decision. Defined.

(** ToBoolean. *)
Definition truthy (v : value) : bool :=
  match v with
  | Undefined => false
  | Num n => negb (Nat.eqb n 0)
  | Str s => negb (String.eqb s EmptyString)
  | Inherited => true
  end.

(** [a || b]. *)
Definition or (a b : value) : value := if truthy a then a else b.

(** The property names every plain object inherits. *)
Definition Object_prototype_keys : list string :=
  [ "constructor"; "hasOwnProperty"; "isPrototypeOf";
    "propertyIsEnumerable"; "toLocaleString"; "toString"; "valueOf";
    "__proto__"; "__defineGetter__"; "__defineSetter__";
    "__lookupGetter__"; "__lookupSetter__" ].

(** A numeric TypeScript [enum E { m0, m1, ... }] is the list of its
    member names in declaration order.  The compiler emits the object
    [E[E["m0"] = 0] = "m0"; ...], which has two own properties per
    member: the name (holding the index) and the index written in
    decimal (holding the name). *)
Definition enum : Type := list string.

Fixpoint index_of (key : string) (E : enum) : option nat :=
  match E with
  | [] => None
  | m :: E' => if String.eqb m key then Some 0 else S <$> index_of key E'
  end.

Fixpoint name_of_key (key : string) (i : nat) (E : enum) : option string :=
  match E with
  | [] => None
  | m :: E' => if String.eqb (pretty i) key then Some m
               else name_of_key key (S i) E'
  end.

(** [E[key]] for a string key: own properties first, then the
    prototype chain. *)
Definition get (E : enum) (key : string) : value :=
  match index_of key E with
  | Some i => Num i
  | None =>
      match name_of_key key 0 E with
      | Some m => Str m
      | None =>
          if bool_decide (key ∈ Object_prototype_keys) then Inherited
          else Undefined
      end
  end.

(** The own properties of the enumeration object: the member names and
    the member indices written in decimal. *)
Definition own_key (E : enum) (key : string) : Prop :=
key ∈ E \/ exists i, i < length E /\ key = pretty i.

(** Every property [E[key]] finds, own or inherited. *)
Definition has_property (E : enum) (key : string) : Prop :=
own_key E key \/ key ∈ Object_prototype_keys.

(** [E[n]] for a number: the key is the number written in decimal. *)
Definition get_num (E : enum) (n : nat) : value := get E (pretty n).

(** [E[v]] for a value of any kind (property keys are strings; a
    number is converted, [undefined] becomes the key ["undefined"]). *)
Definition get_value (E : enum) (v : value) : value :=
  match v with
  | Undefined => get E "undefined"
  | Num n => get_num E n
  | Str s => get E s
  | Inherited => Undefined
  end.

(** A promise, by the way it settles: it resolves with a value,
    rejects with an error, or never settles. *)
Inductive promise (A : Type) : Type :=
| Resolved (a : A)
| Rejected (error : string)
| Pending.
Arguments Resolved {A} a.
Arguments Rejected {A} error.
Arguments Pending {A}.

Fixpoint first_rejection {A} (ps : list (promise A)) : option string :=
  match ps with
  | [] => None
  | Rejected e :: _ => Some e
  | _ :: ps' => first_rejection ps'
  end.

Fixpoint all_values {A} (ps : list (promise A)) : option (list A) :=
  match ps with
  | [] => Some []
  | Resolved a :: ps' => cons a <$> all_values ps'
  | _ :: _ => None
  end.

(** [Promise.all(ps)]: rejects as soon as one of [ps] rejects (whatever
    the others do), resolves with all the values once every one has
    resolved, and otherwise stays pending.  When several reject, the
    error is the one of the first in the list; the only caller drops
    the error. *)
Definition all {A} (ps : list (promise A)) : promise (list A) :=
  match first_rejection ps with
  | Some e => Rejected e
  | None =>
      match all_values ps with
      | Some vs => Resolved vs
      | None => Pending
      end
  end.

(** [p.catch(handler)] for a handler that returns a plain value. *)
Definition catch {A} (p : promise A) (handler : string -> A) : promise A :=
  match p with
  | Rejected e => Resolved (handler e)
  | _ => p
  end.

(** What a call can do: return or throw. *)
Inductive outcome (A : Type) : Type :=
| Returns (a : A)
| Throws (message : string).
Arguments Returns {A} a.
Arguments Throws {A} message.

(** What the compiler accepts as the member names of an enumeration: no
    name twice, no name that is one of the indices written in decimal,
    no empty name. *)
Definition well_declared (E : enum) : Prop :=
  NoDup E
  /\ (forall i, i < length E -> pretty i ∉ E)
  /\ EmptyString ∉ E.

(** [p.then(f)] for a callback that returns a promise. *)
Definition and_then {A B} (p : promise A) (f : A -> promise B) : promise B :=
  match p with
  | Resolved a => f a
  | Rejected e => Rejected e
  | Pending => Pending
  end.

End JS.

(** ** The part of three.js the sources use *)

Module THREE.

(** A coordinate: a finite number or one of the infinities an empty
    box is made of. *)
Inductive coord : Type :=
| NegInf
| Fin (z : Z)
| PosInf.

#[global] Instance coord_eq_dec : EqDecision coord.
Proof. solve_decision. Defined.

Definition cleb (a b : coord) : bool :=
  match a, b with
  | NegInf, _ => true
  | _, PosInf => true
  | Fin x, Fin y => Z.leb x y
  | _, _ => false
  end.

Definition cltb (a b : coord) : bool := negb (cleb b a).
Definition cmin (a b : coord) : coord := if cleb a b then a else b.
Definition cmax (a b : coord) : coord := if cleb a b then b else a.

Record Vector3 : Type := vec3 { x : coord; y : coord; z : coord }.

Definition vmin (a b : Vector3) : Vector3 :=
  vec3 (cmin (x a) (x b)) (cmin (y a) (y b)) (cmin (z a) (z b)).
Definition vmax (a b : Vector3) : Vector3 :=
  vec3 (cmax (x a) (x b)) (cmax (y a) (y b)) (cmax (z a) (z b)).

Record Box3 : Type := box3 { min : Vector3; max : Vector3 }.

(** [makeEmpty()]: min = +Infinity, max = -Infinity. *)
Definition makeEmpty : Box3 :=
  box3 (vec3 PosInf PosInf PosInf) (vec3 NegInf NegInf NegInf).

(** [new THREE.Box3()] starts out empty. *)
Definition Box3_new : Box3 := makeEmpty.

(** [isEmpty()]. *)
Definition isEmpty (b : Box3) : bool :=
  cltb (x (max b)) (x (min b)) || cltb (y (max b)) (y (min b))
  || cltb (z (max b)) (z (min b)).

Definition expandByPoint (b : Box3) (p : Vector3) : Box3 :=
  box3 (vmin (min b) p) (vmax (max b) p).

(** [union(box)]. *)
Definition union (a b : Box3) : Box3 :=
  box3 (vmin (min a) (min b)) (vmax (max a) (max b)).

(** A texture is an object; two slots hold the same texture when they
    hold the same reference. *)
Inductive Texture : Type := TextureRef (ref : nat).

#[global] Instance Texture_eq_dec : EqDecision Texture.
Proof. solve_decision. Defined.

(** A geometry: an object reference and its vertices, taken in world
    space.  Coordinates are integers here; boxes only compare them. *)
Record Geometry : Type :=
  { geometry_ref : nat; vertices : list Vector3 }.

(** [UberMaterial] (a physically-based material): the six texture
    slots [disposeMesh] and [assignTextures] touch, and the three
    shading parameters [load] touches. *)
Record UberMaterial : Type :=
  { map : option Texture;
    aoMap : option Texture;
    emissiveMap : option Texture;
    metalnessMap : option Texture;
    roughnessMap : option Texture;
    normalMap : option Texture;
    color : Q * Q * Q;
    roughness : Q;
    metalness : Q }.

(** [color.setScalar(s)]. *)
Definition setScalar (s : Q) : Q * Q * Q := (s, s, s).

(** A scene-graph node: a mesh (geometry and material), or any other
    node (group, line, points), with or without a geometry. *)
#[warnings="-register-all"]
Inductive Object3D : Type :=
| Mesh (geometry : Geometry) (material : UberMaterial)
       (children : list Object3D)
| Node (geometry : option Geometry) (children : list Object3D).

Definition isMesh (o : Object3D) : bool :=
  match o with Mesh _ _ _ => true | Node _ _ => false end.

Definition geometry_of (o : Object3D) : option Geometry :=
  match o with Mesh g _ _ => Some g | Node g _ => g end.

(** [traverse(callback)]: the callback sees the node, then every
    descendant, depth first.  The list is the order of the calls. *)
Fixpoint traverse (o : Object3D) : list Object3D :=
  o :: match o with
       | Mesh _ _ cs => flat_map traverse cs
       | Node _ cs => flat_map traverse cs
       end.

Definition expandByGeometry (b : Box3) (g : option Geometry) : Box3 :=
  match g with
  | Some g => fold_left expandByPoint (vertices g) b
  | None => b
  end.

(** [expandByObject(object)]: expand by every vertex of every node of
    the object that has a geometry. *)
Definition expandByObject (b : Box3) (o : Object3D) : Box3 :=
  fold_left (fun b n => expandByGeometry b (geometry_of n)) (traverse o) b.

(** [dispose()] of a GPU resource, as an entry of the release trace. *)
Inductive release : Type :=
| ReleaseGeometry (ref : nat)
| ReleaseTexture (t : Texture).

#[global] Instance release_eq_dec : EqDecision release.
Proof. solve_decision. Defined.

(** [containsPoint(point)]. *)
Definition containsPoint (b : Box3) (p : Vector3) : bool :=
  negb (cltb (x p) (x (min b)) || cltb (x (max b)) (x p)
        || cltb (y p) (y (min b)) || cltb (y (max b)) (y p)
        || cltb (z p) (z (min b)) || cltb (z (max b)) (z p)).

(** The vertices [expandByObject] goes through: those of every node of
    the object that has a geometry. *)
Definition verticesOf (o : Object3D) : list Vector3 :=
  flat_map (fun n => match geometry_of n with
                     | Some g => vertices g
                     | None => []
                     end)
           (traverse o).

End THREE.

(** ** Persisted item data ([common/types/item]) *)

Module Item.

(** [{uri, type, mapType?}] *)
Record IAsset : Type :=
  { uri : string; type : string; mapType : option string }.

(** [{usage, quality, assets}]; [usage] and [quality] hold what the
    enumeration's reverse mapping produced. *)
Record IDerivative : Type :=
  { usage : JS.value; quality : JS.value; assets : list IAsset }.

End Item.

(** ** Assets *)

Module Asset.

Inductive EAssetType : Type :=
| Model
| Geometry
| Image
| Texture
| OtherAssetType (n : nat).

Inductive EMapType : Type :=
| Color
| Occlusion
| Emissive
| MetallicRoughness
| Normal.

#[global] Instance EAssetType_eq_dec : EqDecision EAssetType.
Proof. solve_decision. Defined.
#[global] Instance EMapType_eq_dec : EqDecision EMapType.
Proof. solve_decision. Defined.

(** The fields of an [Asset] that [Derivative] reads and writes.  A
    field that was never assigned is [None]. *)
Record t : Type :=
  { uri : string;
    type : option EAssetType;
    mapType : option EMapType }.

#[global] Instance t_eq_dec : EqDecision t.
Proof. solve_decision. Defined.

(** The [Asset] class itself is not among the sources: its constructor
    [new Asset(data?)] and its [toData()] are the operations of this
    interface. *)
Class Impl : Type :=
  { new : option Item.IAsset -> t;
    toData : t -> Item.IAsset }.

End Asset.

(** ** Derivatives *)

Module Derivative.

Import THREE.

Inductive EDerivativeUsage : Type := Web | Print | Editorial.
Inductive EDerivativeQuality : Type :=
  Thumb | Low | Medium | High | Highest | LOD | Stream.

#[global] Instance EDerivativeUsage_eq_dec : EqDecision EDerivativeUsage.
Proof. solve_decision. Defined.
#[global] Instance EDerivativeQuality_eq_dec : EqDecision EDerivativeQuality.
Proof. solve_decision. Defined.

(** The two enumerations as the objects the compiler emits, and the
    number each member is at run time. *)
Definition EDerivativeUsage_enum : JS.enum := ["Web"; "Print"; "Editorial"].
Definition EDerivativeQuality_enum : JS.enum :=
  ["Thumb"; "Low"; "Medium"; "High"; "Highest"; "LOD"; "Stream"].

Definition usage_index (u : EDerivativeUsage) : nat :=
  match u with Web => 0 | Print => 1 | Editorial => 2 end.

Definition quality_index (q : EDerivativeQuality) : nat :=
  match q with
  | Thumb => 0 | Low => 1 | Medium => 2 | High => 3
  | Highest => 4 | LOD => 5 | Stream => 6
  end.

Record t : Type :=
  { id : string;
    usage : EDerivativeUsage;
    quality : EDerivativeQuality;
    assets : list Asset.t;
    model : option Object3D;
    boundingBox : Box3 }.

Definition set_assets (d : t) (l : list Asset.t) : t :=
  {| id := id d; usage := usage d; quality := quality d; assets := l;
     model := model d; boundingBox := boundingBox d |}.

Definition set_model (d : t) (o : Object3D) : t :=
  {| id := id d; usage := usage d; quality := quality d;
     assets := assets d; model := Some o; boundingBox := boundingBox d |}.

Definition set_boundingBox (d : t) (b : Box3) : t :=
  {| id := id d; usage := usage d; quality := quality d;
     assets := assets d; model := model d; boundingBox := b |}.

(** [constructor(usage, quality, assetData?)].  [assetData] is
    optional; [assetData.map(...)] on [undefined] throws a TypeError. *)
Definition constructor `{Asset.Impl}
    (usage : EDerivativeUsage) (quality : EDerivativeQuality)
    (assetData : option (list Item.IAsset)) : JS.outcome t :=
  match assetData with
  | None => JS.Throws "TypeError: Cannot read property 'map' of undefined"
  | Some assetData =>
      JS.Returns
        {| id := EmptyString;
           usage := usage;
           quality := quality;
           assets := List.map (fun data => Asset.new (Some data)) assetData;
           model := None;
           boundingBox := Box3_new |}
  end.

(** [findAsset(type)]: the first asset of that type. *)
Definition findAsset (type : Asset.EAssetType) (d : t) : option Asset.t :=
  List.find (fun asset => bool_decide (Asset.type asset = Some type))
            (assets d).

(** [findAssets(type)]: all assets of that type, in order. *)
Definition findAssets (type : Asset.EAssetType) (d : t) : list Asset.t :=
  List.filter (fun asset => bool_decide (Asset.type asset = Some type))
              (assets d).

(** [addAsset(uri, type, mapType?)]: the completion and the derivative
    afterwards. *)
Definition addAsset `{Asset.Impl}
    (uri : string) (type : Asset.EAssetType)
    (mapType : option Asset.EMapType) (d : t) : JS.outcome unit * t :=
  if String.eqb uri EmptyString then
    (JS.Throws "uri must be specified", d)
  else
    let asset := Asset.new None in
    let asset :=
      {| Asset.uri := uri; Asset.type := Asset.type asset;
         Asset.mapType := Asset.mapType asset |} in
    let asset :=
      {| Asset.uri := Asset.uri asset; Asset.type := Some type;
         Asset.mapType := Asset.mapType asset |} in
    let asset :=
      match mapType with
      | Some mapType =>
          if bool_decide (type = Asset.Texture) then
            {| Asset.uri := Asset.uri asset; Asset.type := Asset.type asset;
               Asset.mapType := Some mapType |}
          else asset
      | None => asset
      end in
    (JS.Returns tt, set_assets d (assets d ++ [asset])).

(** [toData()]. *)
Definition toData `{Asset.Impl} (d : t) : Item.IDerivative :=
  {| Item.usage := JS.get_num EDerivativeUsage_enum (usage_index (usage d));
     Item.quality :=
       JS.get_num EDerivativeQuality_enum (quality_index (quality d));
     Item.assets := List.map Asset.toData (assets d) |}.

(** The loading manager [load] is given ([core/loaders/LoadingManager]):
    each request returns a promise. *)
Record LoadingManager : Type :=
  { loadModel : Asset.t -> option string -> JS.promise Object3D;
    loadGeometry : Asset.t -> option string -> JS.promise Geometry;
    loadTexture : Asset.t -> option string -> JS.promise Texture }.

(** The requests [load] issues, as entries of its trace. *)
Inductive request : Type :=
| RequestModel (asset : Asset.t) (assetPath : option string)
| RequestGeometry (asset : Asset.t) (assetPath : option string)
| RequestTexture (asset : Asset.t) (assetPath : option string).

(** One step of the loop of [assignTextures]: the [switch] on
    [asset.mapType] with [texture = textures[i]] ([None] when [i] is
    out of range or the asset has no map type). *)
Definition assignTexture (mapType : option Asset.EMapType)
    (texture : option Texture) (m : UberMaterial) : UberMaterial :=
  match mapType with
  | Some Asset.Color =>
      {| map := texture; aoMap := aoMap m; emissiveMap := emissiveMap m;
         metalnessMap := metalnessMap m; roughnessMap := roughnessMap m;
         normalMap := normalMap m; color := color m;
         roughness := roughness m; metalness := metalness m |}
  | Some Asset.Occlusion =>
      {| map := map m; aoMap := texture; emissiveMap := emissiveMap m;
         metalnessMap := metalnessMap m; roughnessMap := roughnessMap m;
         normalMap := normalMap m; color := color m;
         roughness := roughness m; metalness := metalness m |}
  | Some Asset.Emissive =>
      {| map := map m; aoMap := aoMap m; emissiveMap := texture;
         metalnessMap := metalnessMap m; roughnessMap := roughnessMap m;
         normalMap := normalMap m; color := color m;
         roughness := roughness m; metalness := metalness m |}
  | Some Asset.MetallicRoughness =>
      {| map := map m; aoMap := aoMap m; emissiveMap := emissiveMap m;
         metalnessMap := texture; roughnessMap := texture;
         normalMap := normalMap m; color := color m;
         roughness := roughness m; metalness := metalness m |}
  | Some Asset.Normal =>
      {| map := map m; aoMap := aoMap m; emissiveMap := emissiveMap m;
         metalnessMap := metalnessMap m; roughnessMap := roughnessMap m;
         normalMap := texture; color := color m;
         roughness := roughness m; metalness := metalness m |}
  | None => m
  end.

(** [assignTextures(assets, textures, material)], the loop from index
    [i] on. *)
Fixpoint assignTextures_from (i : nat) (assets : list Asset.t)
    (textures : list Texture) (material : UberMaterial) : UberMaterial :=
  match assets with
  | [] => material
  | asset :: assets' =>
      assignTextures_from (S i) assets' textures
        (assignTexture (Asset.mapType asset) (textures !! i) material)
  end.

Definition assignTextures (assets : list Asset.t) (textures : list Texture)
    (material : UberMaterial) : UberMaterial :=
  assignTextures_from 0 assets textures material.

(** Whether one of [assets] has map type [mapType]. *)
Definition named (mapType : Asset.EMapType) (assets : list Asset.t) : bool :=
  existsb (fun asset => bool_decide (Asset.mapType asset = Some mapType))
          assets.

Definition isMetallicRoughness (asset : Asset.t) : bool :=
bool_decide (Asset.mapType asset = Some Asset.MetallicRoughness).

(** The six texture slots of a material, in the order [disposeMesh]
    goes through them. *)
Definition slots (m : UberMaterial) : list (option Texture) :=
  [map m; aoMap m; emissiveMap m; metalnessMap m; roughnessMap m;
   normalMap m].

(** The shading used when no colour map ended up assigned. *)
Definition fallbackShading (m : UberMaterial) : UberMaterial :=
  if bool_decide (map m = None) then
    {| map := map m; aoMap := aoMap m; emissiveMap := emissiveMap m;
       metalnessMap := metalnessMap m; roughnessMap := roughnessMap m;
       normalMap := normalMap m; color := setScalar (1 # 2)%Q;
       roughness := (4 # 5)%Q; metalness := 0%Q |}
  else m.

(** What [load] returns: nothing at all, or a promise of the
    derivative itself. *)
Inductive load_result : Type :=
| ReturnsUndefined
| ReturnsPromise (p : JS.promise t).

(** A run of [load]: what it returns, the derivative once nothing more
    can happen, and the requests issued, in order. *)
Record load_run : Type :=
  { result : load_result; this : t; requests : list request }.

(** [load(loadingManager, assetPath?)].  [newUberMaterial] is what
    [new UberMaterial()] constructs. *)
Definition load (newUberMaterial : UberMaterial)
    (loadingManager : LoadingManager) (assetPath : option string)
    (d : t) : load_run :=
  match findAsset Asset.Model d with
  | Some modelAsset =>
      let issued := [RequestModel modelAsset assetPath] in
      match loadModel loadingManager modelAsset assetPath with
      | JS.Resolved object =>
          let d := set_model d object in
          let d := set_boundingBox d (expandByObject makeEmpty object) in
          {| result := ReturnsPromise (JS.Resolved d); this := d;
             requests := issued |}
      | JS.Rejected e =>
          {| result := ReturnsPromise (JS.Rejected e); this := d;
             requests := issued |}
      | JS.Pending =>
          {| result := ReturnsPromise JS.Pending; this := d;
             requests := issued |}
      end
  | None =>
      let geoAsset := findAsset Asset.Geometry d in
      let imageAssets := findAssets Asset.Image d in
      match geoAsset with
      | Some geoAsset =>
          let issued := [RequestGeometry geoAsset assetPath] in
          match loadGeometry loadingManager geoAsset assetPath with
          | JS.Resolved geometry =>
              let d := set_model d (Mesh geometry newUberMaterial []) in
              let d :=
                set_boundingBox d
                  (expandByObject makeEmpty
                     (Mesh geometry newUberMaterial [])) in
              let issued :=
                issued ++
                List.map (fun asset => RequestTexture asset assetPath)
                         imageAssets in
              let textures :=
                JS.catch
                  (JS.all
                     (List.map
                        (fun asset =>
                           loadTexture loadingManager asset assetPath)
                        imageAssets))
                  (fun error => []) in
              match textures with
              | JS.Resolved textures =>
                  match model d with
                  | Some (Mesh g material cs) =>
                      let material :=
                        assignTextures imageAssets textures material in
                      let material := fallbackShading material in
                      let d := set_model d (Mesh g material cs) in
                      {| result := ReturnsPromise (JS.Resolved d);
                         this := d; requests := issued |}
                  | _ =>
                      {| result :=
                           ReturnsPromise
                             (JS.Rejected "TypeError: not a mesh");
                         this := d; requests := issued |}
                  end
              | JS.Rejected e =>
                  {| result := ReturnsPromise (JS.Rejected e); this := d;
                     requests := issued |}
              | JS.Pending =>
                  {| result := ReturnsPromise JS.Pending; this := d;
                     requests := issued |}
              end
          | JS.Rejected e =>
              {| result := ReturnsPromise (JS.Rejected e); this := d;
                 requests := issued |}
          | JS.Pending =>
              {| result := ReturnsPromise JS.Pending; this := d;
                 requests := issued |}
          end
      | None =>
          {| result := ReturnsUndefined; this := d; requests := [] |}
      end
  end.

Definition releaseMap (slot : option Texture) : list release :=
  match slot with
  | Some texture => [ReleaseTexture texture]
  | None => []
  end.

(** [disposeMesh(mesh)]: the [dispose()] calls it makes, in order. *)
Definition disposeMesh (geometry : Geometry) (material : UberMaterial)
    : list release :=
  ReleaseGeometry (geometry_ref geometry)
  :: releaseMap (map material)
  ++ releaseMap (aoMap material)
  ++ releaseMap (emissiveMap material)
  ++ releaseMap (metalnessMap material)
  ++ releaseMap (roughnessMap material)
  ++ releaseMap (normalMap material).

(** The callback [dispose] passes to [traverse]. *)
Definition disposeObject (object : Object3D) : list release :=
  match object with
  | Mesh geometry material _ => disposeMesh geometry material
  | Node _ _ => []
  end.

(** A run of [dispose]: how it completes, the derivative afterwards and
    the [dispose()] calls made on GPU resources, in order. *)
Record dispose_run : Type :=
  { completion : JS.outcome unit; after : t; released : list release }.

(** [dispose()]. *)
Definition dispose (d : t) : dispose_run :=
  match model d with
  | Some model =>
      {| completion := JS.Returns tt; after := d;
         released := flat_map disposeObject (traverse model) |}
  | None =>
      {| completion := JS.Returns tt; after := d; released := [] |}
  end.

(** The texture the loop of [assignTextures] leaves in the slot of
    [mapType] when every asset comes with its texture: the one of the
    last asset of that map type, if there is one. *)
Fixpoint lastTexture (mapType : Asset.EMapType)
    (loaded : list (Asset.t * Texture)) : option Texture :=
  match loaded with
  | [] => None
  | (asset, texture) :: loaded' =>
      match lastTexture mapType loaded' with
      | Some later => Some later
      | None =>
          if bool_decide (Asset.mapType asset = Some mapType)
          then Some texture else None
      end
  end.

(** The number of texture slots of a material that hold a texture. *)
Definition occupied (m : UberMaterial) : nat :=
  length (List.filter (fun slot => bool_decide (slot <> None)) (slots m)).

End Derivative.

(** ** Reading a derivative from persisted data *)

Module DerivativeData.

Import Derivative.

Definition usage_of_index (n : nat) : EDerivativeUsage :=
  match n with 1 => Print | 2 => Editorial | _ => Web end.

Definition quality_of_index (n : nat) : EDerivativeQuality :=
  match n with
  | 1 => Low | 2 => Medium | 3 => High | 4 => Highest | 5 => LOD
  | 6 => Stream | _ => Thumb
  end.

(** Modelled from the spec: the conversion of the persisted usage
    string into [EDerivativeUsage], which a caller of the constructor
    does and which is not among the sources.  A member name gives its
    member, anything else gives index 0. *)
Definition readUsage (v : JS.value) : EDerivativeUsage :=
  match v with
  | JS.Str s =>
      match JS.index_of s EDerivativeUsage_enum with
      | Some i => usage_of_index i
      | None => usage_of_index 0
      end
  | _ => usage_of_index 0
  end.

(** Modelled from the spec: the same conversion for the persisted
    quality string. *)
Definition readQuality (v : JS.value) : EDerivativeQuality :=
  match v with
  | JS.Str s =>
      match JS.index_of s EDerivativeQuality_enum with
      | Some i => quality_of_index i
      | None => quality_of_index 0
      end
  | _ => quality_of_index 0
  end.

(** Modelled from the spec: construction of a derivative from persisted
    data, the caller of [constructor] that is not among the sources. *)
Definition fromData `{Asset.Impl} (data : Item.IDerivative)
    : JS.outcome Derivative.t :=
  constructor (readUsage (Item.usage data)) (readQuality (Item.quality data))
              (Some (Item.assets data)).

End DerivativeData.

(** ** The asset loader's loading manager *)

Module CVAssetLoader.

(** The component, as far as the loading manager touches it:
    [outs.loading].  Console output is left out. *)
Record t : Type := { loading : bool }.

(** The four callbacks of [PrivateLoadingManager]. *)
Definition onLoadingStart (c : t) : t := {| loading := true |}.

Definition onLoadingProgress (url : string) (itemsLoaded itemsTotal : nat)
    (c : t) : t := c.

Definition onLoadingCompleted (c : t) : t := {| loading := false |}.

Definition onLoadingError (c : t) : t := {| loading := false |}.

(** The base class [THREE.LoadingManager] of three.js: its counters, and
    the asset loader its callbacks are bound to.  [itemStart] calls
    [onStart] when nothing was loading; [itemEnd] calls [onProgress],
    and [onLoad] when every announced load has ended; [itemError] calls
    [onError]. *)
Record PrivateLoadingManager : Type :=
  { isLoading : bool;
    itemsLoaded : nat;
    itemsTotal : nat;
    assetLoader : t }.

(** [new PrivateLoadingManager(assetLoader)] on a fresh component. *)
Definition initial : PrivateLoadingManager :=
  {| isLoading := false; itemsLoaded := 0; itemsTotal := 0;
     assetLoader := {| loading := false |} |}.

(** [itemStart(url)]: a loader announces a load. *)
Definition itemStart (url : string) (m : PrivateLoadingManager)
    : PrivateLoadingManager :=
  {| isLoading := true;
     itemsLoaded := itemsLoaded m;
     itemsTotal := S (itemsTotal m);
     assetLoader :=
       if isLoading m then assetLoader m
       else onLoadingStart (assetLoader m) |}.

(** [itemEnd(url)]: a load is over. *)
Definition itemEnd (url : string) (m : PrivateLoadingManager)
    : PrivateLoadingManager :=
  let loaded := S (itemsLoaded m) in
  let c := onLoadingProgress url loaded (itemsTotal m) (assetLoader m) in
  if Nat.eqb loaded (itemsTotal m) then
    {| isLoading := false; itemsLoaded := loaded;
       itemsTotal := itemsTotal m; assetLoader := onLoadingCompleted c |}
  else
    {| isLoading := isLoading m; itemsLoaded := loaded;
       itemsTotal := itemsTotal m; assetLoader := c |}.

(** [itemError(url)]: a load failed. *)
Definition itemError (url : string) (m : PrivateLoadingManager)
    : PrivateLoadingManager :=
  {| isLoading := isLoading m; itemsLoaded := itemsLoaded m;
     itemsTotal := itemsTotal m;
     assetLoader := onLoadingError (assetLoader m) |}.

(** What the loaders tell the manager. *)
Inductive item_event : Type :=
| ItemStart (url : string)
| ItemEnd (url : string)
| ItemError (url : string).

Definition step (m : PrivateLoadingManager) (e : item_event)
    : PrivateLoadingManager :=
  match e with
  | ItemStart url => itemStart url m
  | ItemEnd url => itemEnd url m
  | ItemError url => itemError url m
  end.

Definition run (es : list item_event) (m : PrivateLoadingManager)
    : PrivateLoadingManager :=
  fold_left step es m.

(** The loads announced and not yet over. *)
Definition outstanding (m : PrivateLoadingManager) : nat :=
  itemsTotal m - itemsLoaded m.

(** A sequence loaders can produce: a load ends only while one is in
    flight ([inflight] counts them). *)
Fixpoint well_formed (inflight : nat) (es : list item_event) : bool :=
  match es with
  | [] => true
  | ItemStart _ :: es' => well_formed (S inflight) es'
  | ItemEnd _ :: es' =>
      match inflight with
      | 0 => false
      | S n => well_formed n es'
      end
  | ItemError _ :: es' => well_formed inflight es'
  end.

(** A sequence during which, with [inflight] loads in flight at its
    start, the queue never runs empty. *)
Fixpoint never_idle (inflight : nat) (es : list item_event) : bool :=
  match es with
  | [] => true
  | ItemStart _ :: es' => never_idle (S inflight) es'
  | ItemEnd _ :: es' =>
      match inflight with
      | S (S n) => never_idle (S n) es'
      | _ => false
      end
  | ItemError _ :: es' => never_idle inflight es'
  end.

Definition isItemError (e : item_event) : bool :=
  match e with ItemError _ => true | _ => false end.

(** What holds of the manager while [n] loads are in flight. *)
Definition loading_inv (n : nat) (m : PrivateLoadingManager) : Prop :=
  itemsLoaded m + n = itemsTotal m
  /\ isLoading m = bool_decide (0 < n)
  /\ (loading (assetLoader m) = true -> 0 < n).

End CVAssetLoader.

(** ** The scene *)

Module CVScene.

Import THREE.

(** A model component, as far as the scene touches it. *)
Record CVModel2 : Type := { model_id : nat; object3D : Object3D }.

(** A property of the component graph: its value and its change flag. *)
Record property : Type := { value : JS.value; changed : bool }.

(** [setValue(v)]. *)
Definition setValue (v : JS.value) (p : property) : property :=
  {| value := v; changed := true |}.

(** [IComponentEvent<CVModel2>]. *)
Record IComponentEvent : Type :=
  { add : bool; remove : bool; object : CVModel2 }.

(** The scene: [ins.units], [_modelBoundingBox], the events emitted so
    far, the models whose "bounding-box" event it listens to and the
    models whose [globalUnits] are linked to its units. *)
Record t : Type :=
  { units : property;
    _modelBoundingBox : Box3;
    emitted : list string;
    listening : list nat;
    linked : list nat }.

Definition modelBoundingBox (s : t) : Box3 := _modelBoundingBox s.

(** [updateModelBoundingBox()].  [models] is what [this.models] (the
    graph's components of type [CVModel2]) holds when it runs. *)
Definition updateModelBoundingBox (models : list CVModel2) (s : t) : t :=
  let box := makeEmpty in
  let box :=
    fold_left (fun box model => expandByObject box (object3D model))
              models box in
  {| units := units s;
     _modelBoundingBox := box;
     emitted := emitted s ++ ["bounding-box"];
     listening := listening s;
     linked := linked s |}.

(** [onModelComponent(event)]. *)
Definition onModelComponent (models : list CVModel2)
    (event : IComponentEvent) (s : t) : t :=
  let model := object event in
  let s :=
    if add event then
      {| units := units s; _modelBoundingBox := _modelBoundingBox s;
         emitted := emitted s;
         listening := listening s ++ [model_id model];
         linked := linked s ++ [model_id model] |}
    else s in
  let s :=
    if remove event then
      {| units := units s; _modelBoundingBox := _modelBoundingBox s;
         emitted := emitted s;
         listening :=
           List.filter (fun i => negb (Nat.eqb i (model_id model)))
                       (listening s);
         linked := linked s |}
    else s in
  updateModelBoundingBox models s.

(** [update(context)]. *)
Definition update (models : list CVModel2) (s : t) : t * bool :=
  let s := if changed (units s) then updateModelBoundingBox models s else s in
  (s, true).

(** [fromDocument(document, scene)]; [EUnitType] is the enumeration of
    [common/types/common], [scene_units] is [scene.units]. *)
Definition fromDocument (EUnitType : JS.enum) (scene_units : string)
    (s : t) : t :=
  {| units :=
       setValue (JS.or (JS.get EUnitType scene_units) (JS.Num 0)) (units s);
     _modelBoundingBox := _modelBoundingBox s;
     emitted := emitted s;
     listening := listening s;
     linked := linked s |}.

(** The box of one model: the empty box expanded by its object. *)
Definition boxOfModel (model : CVModel2) : Box3 :=
  expandByObject makeEmpty (object3D model).

(** The union of the boxes of a set of models. *)
Definition unionOfModels (models : list CVModel2) : Box3 :=
  fold_right (fun model box => union (boxOfModel model) box)
             makeEmpty models.

End CVScene.

(** ** The reader *)

Module CVReader.

(** [IReader], as it comes out of a document: any field may be
    missing. *)
Record IReader : Type :=
  { data_visible : JS.value; data_position : JS.value; data_url : JS.value }.

(** The inputs of the component. *)
Record t : Type :=
  { visible : bool; position : JS.value; url : JS.value }.

(** [fromData(data)]; [EReaderPosition] is the enumeration of
    [common/types/setup]. *)
Definition fromData (EReaderPosition : JS.enum) (data : option IReader)
    (c : t) : t :=
  let data :=
    match data with
    | Some data => data
    | None =>
        {| data_visible := JS.Undefined; data_position := JS.Undefined;
           data_url := JS.Undefined |}
    end in
  {| visible := JS.truthy (data_visible data);
     position :=
       JS.or (JS.get_value EReaderPosition (data_position data))
             (JS.get EReaderPosition "Overlay");
     url := data_url data |}.

(** What [toData] returns: [visible] as the input holds it, the
    position, the URL. *)
Record data : Type :=
  { out_visible : bool; out_position : JS.value; out_url : JS.value }.

(** [toData()]. *)
Definition toData (EReaderPosition : JS.enum) (c : t) : data :=
  {| out_visible := visible c;
     out_position :=
       JS.or (JS.get_value EReaderPosition (position c)) (JS.Str "Overlay");
     out_url := url c |}.

(** [setArticle(article)]; [uri] is [article.data.uri]. *)
Definition setArticle (uri : JS.value) (c : t) : t :=
  {| visible := visible c; position := position c; url := uri |}.

End CVReader.

(** ** The asset loader: URLs and documents *)

Module CVAssetLoaderRequests.

Import Stdlib.Strings.Ascii.

(** [href.split("?")[0]]: the part before the first question mark. *)
Fixpoint beforeQuery (href : string) : string :=
  match href with
  | EmptyString => EmptyString
  | String c rest =>
      if Ascii.eqb c "?"%char then EmptyString
      else String c (beforeQuery rest)
  end.

(** [setRootURL(url)]: the value it gives [ins.rootUrl].
    [resolvePathname] is the function of the library [resolve-pathname],
    [location_href] is [window.location.href]. *)
Definition setRootURL (resolvePathname : string -> string -> string)
    (location_href url : string) : string :=
  let href := beforeQuery location_href in
  let rootUrl := resolvePathname url href in
  let rootUrl := resolvePathname "." rootUrl in
  rootUrl.

(** [getAssetURL(uri)]. *)
Definition getAssetURL (resolvePathname : string -> string -> string)
    (rootUrl uri : string) : string :=
  resolvePathname uri rootUrl.

(** The loaders and the validator the component holds; [JSON] is what the
    JSON loader produces. *)
Record loaders (JSON : Type) : Type :=
  { jsonLoader : string -> JS.promise JSON;
    validator : JSON -> bool;
    modelLoader : string -> JS.promise THREE.Object3D;
    geometryLoader : string -> JS.promise THREE.Geometry;
    textureLoader : string -> JS.promise THREE.Texture }.
Arguments jsonLoader {JSON} _ _.
Arguments validator {JSON} _ _.
Arguments modelLoader {JSON} _ _.
Arguments geometryLoader {JSON} _ _.
Arguments textureLoader {JSON} _ _.

(** [loadJSON(url)]. *)
Definition loadJSON {JSON} (resolvePathname : string -> string -> string)
    (l : loaders JSON) (rootUrl url : string) : JS.promise JSON :=
  let url := getAssetURL resolvePathname rootUrl url in
  jsonLoader l url.

(** [loadModelAsset(asset)], [loadGeometryAsset(asset)] and
    [loadTextureAsset(asset)]; [uri] is [asset.data.uri]. *)
Definition loadModelAsset {JSON} (resolvePathname : string -> string -> string)
    (l : loaders JSON) (rootUrl uri : string) : JS.promise THREE.Object3D :=
  modelLoader l (getAssetURL resolvePathname rootUrl uri).

Definition loadGeometryAsset {JSON}
    (resolvePathname : string -> string -> string)
    (l : loaders JSON) (rootUrl uri : string) : JS.promise THREE.Geometry :=
  geometryLoader l (getAssetURL resolvePathname rootUrl uri).

Definition loadTextureAsset {JSON}
    (resolvePathname : string -> string -> string)
    (l : loaders JSON) (rootUrl uri : string) : JS.promise THREE.Texture :=
  textureLoader l (getAssetURL resolvePathname rootUrl uri).

(** [validateDocument(json)]. *)
Definition validateDocument {JSON} (l : loaders JSON) (json : JSON)
    : JS.promise JSON :=
  if negb (validator l json) then
    JS.Rejected "invalid document data, validation failed"
  else JS.Resolved json.

(** [loadDocumentData(url)]. *)
Definition loadDocumentData {JSON}
    (resolvePathname : string -> string -> string)
    (l : loaders JSON) (rootUrl url : string) : JS.promise JSON :=
  JS.and_then (loadJSON resolvePathname l rootUrl url) (validateDocument l).

End CVAssetLoaderRequests.

(** ** The document view *)

Module DocumentView.

(** A scene setup and a document, as far as the view looks at them: which
    one it is, and the setup a document has, if any. *)
Record CVSetup : Type := { setup_id : nat }.
Record CVDocument : Type := { document_id : nat; setup : option CVSetup }.

#[global] Instance CVSetup_eq_dec : EqDecision CVSetup.
Proof. solve_decision. Defined.
#[global] Instance CVDocument_eq_dec : EqDecision CVDocument.
Proof. solve_decision. Defined.

(** What the view calls: the provider's [on] and [off] for
    "active-component", and its own two hooks. *)
Inductive call : Type :=
| ProviderOn
| ProviderOff
| OnActiveDocument (previous next : option CVDocument)
| OnActiveFeatures (previous next : option CVSetup).

Record t : Type :=
  { activeDocument : option CVDocument;
    activeScene : option CVSetup;
    calls : list call }.

(** A new view. *)
Definition initial : t :=
  {| activeDocument := None; activeScene := None; calls := [] |}.

Definition called (c : call) (v : t) : t :=
  {| activeDocument := activeDocument v; activeScene := activeScene v;
     calls := calls v ++ [c] |}.

(** [connected()]; [active] is [provider.activeComponent]. *)
Definition connected (active : option CVDocument) (v : t) : t :=
  let v := called ProviderOn v in
  match active with
  | Some document =>
      let v :=
        {| activeDocument := Some document; activeScene := setup document;
           calls := calls v |} in
      let v := called (OnActiveDocument None (Some document)) v in
      match activeScene v with
      | Some scene => called (OnActiveFeatures None (Some scene)) v
      | None => v
      end
  | None => v
  end.

(** [disconnected()]. *)
Definition disconnected (v : t) : t :=
  let v := called ProviderOff v in
  let document := activeDocument v in
  let scene := activeScene v in
  match document with
  | Some document =>
      let v :=
        {| activeDocument := None; activeScene := None; calls := calls v |} in
      let v := called (OnActiveDocument (Some document) None) v in
      match scene with
      | Some scene => called (OnActiveFeatures (Some scene) None) v
      | None => v
      end
  | None => v
  end.

(** [onActiveDocumentEvent(event)]; [prev && prev.setup] is
    [prev ≫= setup]. *)
Definition onActiveDocumentEvent (previous next : option CVDocument)
    (v : t) : t :=
  let v :=
    {| activeDocument := next; activeScene := next ≫= setup;
       calls := calls v |} in
  let v := called (OnActiveDocument previous (activeDocument v)) v in
  called (OnActiveFeatures (previous ≫= setup) (activeScene v)) v.

(** What happens to a view. *)
Inductive step : Type :=
| Connected (active : option CVDocument)
| Disconnected
| ActiveDocumentEvent (previous next : option CVDocument).

Definition apply (v : t) (s : step) : t :=
  match s with
  | Connected active => connected active v
  | Disconnected => disconnected v
  | ActiveDocumentEvent previous next => onActiveDocumentEvent previous next v
  end.

Definition run (steps : list step) (v : t) : t := fold_left apply steps v.

(** The sequences the element and the provider produce: the view is
    connected and disconnected in turn, and while it is connected every
    event names as previous the document that was active before it.
    [active] is the provider's active document while connected. *)
Fixpoint lifecycle (isConnected : bool) (active : option CVDocument)
    (steps : list step) : bool :=
  match steps with
  | [] => true
  | Connected a :: steps' => negb isConnected && lifecycle true a steps'
  | Disconnected :: steps' => isConnected && lifecycle false None steps'
  | ActiveDocumentEvent previous next :: steps' =>
      isConnected && bool_decide (previous = active)
      && lifecycle true next steps'
  end.

(** The hook calls of one kind form a chain when each names as previous
    what the call before it named as next; the result is where the
    chain ends. *)
Fixpoint documentChain (current : option CVDocument) (cs : list call)
    : option (option CVDocument) :=
  match cs with
  | [] => Some current
  | OnActiveDocument previous next :: cs' =>
      if bool_decide (previous = current) then documentChain next cs'
      else None
  | _ :: cs' => documentChain current cs'
  end.

Fixpoint featuresChain (current : option CVSetup) (cs : list call)
    : option (option CVSetup) :=
  match cs with
  | [] => Some current
  | OnActiveFeatures previous next :: cs' =>
      if bool_decide (previous = current) then featuresChain next cs'
      else None
  | _ :: cs' => featuresChain current cs'
  end.

(** The provider subscriptions still open after the calls. *)
Fixpoint subscriptions (open : nat) (cs : list call) : nat :=
  match cs with
  | [] => open
  | ProviderOn :: cs' => subscriptions (S open) cs'
  | ProviderOff :: cs' => subscriptions (pred open) cs'
  | _ :: cs' => subscriptions open cs'
  end.

(** What holds of a view along a lifecycle: it holds the provider's
    active document while connected and none otherwise, its scene is that
    document's setup, both kinds of hook calls form chains that end at
    what it holds, and it has one subscription open while connected. *)
Definition view_inv (isConnected : bool) (active : option CVDocument)
    (v : t) : Prop :=
  activeDocument v = (if isConnected then active else None)
  /\ activeScene v = activeDocument v ≫= setup
  /\ documentChain None (calls v) = Some (activeDocument v)
  /\ featuresChain None (calls v) = Some (activeScene v)
  /\ subscriptions 0 (calls v) = (if isConnected then 1 else 0).

End DocumentView.

(** ** A reference [Asset] class and concrete inputs *)

Module AssetReference.

Import Asset.

Definition type_of_name (s : string) : option EAssetType :=
  if String.eqb s "Model" then Some Model
  else if String.eqb s "Geometry" then Some Geometry
  else if String.eqb s "Image" then Some Image
  else if String.eqb s "Texture" then Some Texture
  else None.

Definition name_of_type (t : option EAssetType) : string :=
  match t with
  | Some Model => "Model"
  | Some Geometry => "Geometry"
  | Some Image => "Image"
  | Some Texture => "Texture"
  | _ => EmptyString
  end.

Definition mapType_of_name (s : string) : option EMapType :=
  if String.eqb s "Color" then Some Color
  else if String.eqb s "Occlusion" then Some Occlusion
  else if String.eqb s "Emissive" then Some Emissive
  else if String.eqb s "MetallicRoughness" then Some MetallicRoughness
  else if String.eqb s "Normal" then Some Normal
  else None.

Definition name_of_mapType (t : EMapType) : string :=
  match t with
  | Color => "Color"
  | Occlusion => "Occlusion"
  | Emissive => "Emissive"
  | MetallicRoughness => "MetallicRoughness"
  | Normal => "Normal"
  end.

(** Modelled from the spec: the [Asset] class, which is not among the
    sources.  It is constructed from persisted data or empty, holds
    [uri], [type] and [mapType], and serializes back to the same
    shape. *)
Definition impl : Asset.Impl :=
  {| Asset.new data :=
       match data with
       | Some data =>
           {| uri := Item.uri data;
              type := type_of_name (Item.type data);
              mapType := Item.mapType data ≫= mapType_of_name |}
       | None =>
           {| uri := EmptyString; type := None; mapType := None |}
       end;
     Asset.toData asset :=
       {| Item.uri := uri asset;
          Item.type := name_of_type (type asset);
          Item.mapType := name_of_mapType <$> mapType asset |} |}.

End AssetReference.

Module Sample.

Import THREE Derivative.

Definition material : UberMaterial :=
  {| map := None; aoMap := None; emissiveMap := None;
     metalnessMap := None; roughnessMap := None; normalMap := None;
     color := (1%Q, 1%Q, 1%Q); roughness := (1 # 2)%Q;
     metalness := (1 # 2)%Q |}.

Definition asset (uri : string) (type : Asset.EAssetType)
    (mapType : option Asset.EMapType) : Asset.t :=
  {| Asset.uri := uri; Asset.type := Some type; Asset.mapType := mapType |}.

Definition modelAsset := asset "ewer.glb" Asset.Model None.
Definition geoAsset := asset "ewer.obj" Asset.Geometry None.
Definition colorAsset := asset "ewer-diffuse.jpg" Asset.Image (Some Asset.Color).
Definition normalAsset := asset "ewer-normals.jpg" Asset.Image (Some Asset.Normal).
Definition metalAsset :=
  asset "ewer-orm.jpg" Asset.Image (Some Asset.MetallicRoughness).

Definition corner (a b c : Z) : Vector3 := vec3 (Fin a) (Fin b) (Fin c).

Definition geometry : Geometry :=
  {| geometry_ref := 7; vertices := [corner 0 0 0; corner 1 2 3] |}.

Definition object : Object3D :=
  Node None [Mesh geometry material []].

(** A loading manager for which the model, the geometry, the colour map
    and the metallic-roughness map load, and any other texture fails. *)
Definition loadingManager : LoadingManager :=
  {| loadModel _ _ := JS.Resolved object;
     loadGeometry _ _ := JS.Resolved geometry;
     loadTexture a _ :=
       if bool_decide (a = colorAsset) then JS.Resolved (TextureRef 1)
       else if bool_decide (a = metalAsset) then JS.Resolved (TextureRef 2)
       else JS.Rejected "404" |}.

(** A loading manager for which the geometry loads and every texture
    fails. *)
Definition rejectingManager : LoadingManager :=
  {| loadModel _ _ := JS.Rejected "404";
     loadGeometry _ _ := JS.Resolved geometry;
     loadTexture _ _ := JS.Rejected "404" |}.

Definition derivative (assets : list Asset.t) : Derivative.t :=
  {| id := EmptyString; usage := Web; quality := Medium; assets := assets;
     model := None; boundingBox := Box3_new |}.

Definition EUnitType : JS.enum := ["mm"; "cm"; "m"; "in"; "ft"; "yd"].
Definition EReaderPosition : JS.enum := ["Overlay"; "Left"; "Right"].

Definition scene : CVScene.t :=
  {| CVScene.units := {| CVScene.value := JS.Num 1; CVScene.changed := true |};
     CVScene._modelBoundingBox := Box3_new;
     CVScene.emitted := [];
     CVScene.listening := [];
     CVScene.linked := [] |}.

Definition sceneModel : CVScene.CVModel2 :=
  {| CVScene.model_id := 1; CVScene.object3D := object |}.

Definition added : CVScene.IComponentEvent :=
  {| CVScene.add := true; CVScene.remove := false;
     CVScene.object := sceneModel |}.

Definition reader : CVReader.t :=
  {| CVReader.visible := false; CVReader.position := JS.Num 0;
     CVReader.url := JS.Undefined |}.

Definition persisted : Item.IDerivative :=
  {| Item.usage := JS.Str "Editorial";
     Item.quality := JS.Str "High";
     Item.assets :=
       [ {| Item.uri := "ewer.obj"; Item.type := "Geometry";
            Item.mapType := None |};
         {| Item.uri := "ewer-diffuse.jpg"; Item.type := "Image";
            Item.mapType := Some "Color" |} ] |}.

End Sample.

(** * Properties *)

(** ** Boxes: [union] is a commutative monoid with unit [makeEmpty] *)

Section Boxes.

Import THREE.

Lemma cleb_total a b : cleb a b = true \/ cleb b a = true.
Proof. destruct a, b; simpl; auto; rewrite !Z.leb_le; lia. Qed.

Lemma cleb_trans a b c : cleb a b = true -> cleb b c = true -> cleb a c = true.
Proof.
  destruct a, b, c; simpl; auto; try discriminate.
  rewrite !Z.leb_le; lia.
Qed.

Lemma cleb_antisym a b : cleb a b = true -> cleb b a = true -> a = b.
Proof.
  destruct a, b; simpl; auto; try discriminate.
  rewrite !Z.leb_le; intros; f_equal; lia.
Qed.

Lemma cmin_comm a b : cmin a b = cmin b a.
Proof.
  unfold cmin. destruct (cleb a b) eqn:Hab, (cleb b a) eqn:Hba; auto.
  - by apply cleb_antisym.
  - destruct (cleb_total a b); congruence.
Qed.

Lemma cmax_comm a b : cmax a b = cmax b a.
Proof.
  unfold cmax. destruct (cleb a b) eqn:Hab, (cleb b a) eqn:Hba; auto.
  - symmetry. by apply cleb_antisym.
  - destruct (cleb_total a b); congruence.
Qed.

Lemma cleb_false a b : cleb a b = false -> cleb b a = true.
Proof. destruct (cleb_total a b); congruence. Qed.

Lemma cmin_assoc a b c : cmin a (cmin b c) = cmin (cmin a b) c.
Proof.
  unfold cmin.
  destruct (cleb b c) eqn:Hbc, (cleb a b) eqn:Hab;
    rewrite ?Hbc, ?Hab; auto.
  - by rewrite (cleb_trans a b c).
  - destruct (cleb a c) eqn:Hac; auto.
    apply cleb_false in Hbc.
    rewrite (cleb_trans a c b) in Hab; congruence.
Qed.

Lemma cmax_assoc a b c : cmax a (cmax b c) = cmax (cmax a b) c.
Proof.
  unfold cmax.
  destruct (cleb b c) eqn:Hbc, (cleb a b) eqn:Hab;
    rewrite ?Hbc, ?Hab; auto.
  - by rewrite (cleb_trans a b c).
  - destruct (cleb a c) eqn:Hac; auto.
    apply cleb_false in Hab.
    rewrite (cleb_trans b a c) in Hbc; congruence.
Qed.

Lemma cmin_PosInf a : cmin a PosInf = a.
Proof. by destruct a. Qed.

Lemma cmax_NegInf a : cmax a NegInf = a.
Proof. by destruct a. Qed.

Lemma vmin_assoc a b c : vmin a (vmin b c) = vmin (vmin a b) c.
Proof. unfold vmin; simpl. by rewrite !cmin_assoc. Qed.

Lemma vmax_assoc a b c : vmax a (vmax b c) = vmax (vmax a b) c.
Proof. unfold vmax; simpl. by rewrite !cmax_assoc. Qed.

Lemma union_assoc a b c : union a (union b c) = union (union a b) c.
Proof. unfold union; simpl. by rewrite vmin_assoc, vmax_assoc. Qed.

Lemma union_comm a b : union a b = union b a.
Proof.
  unfold union, vmin, vmax.
  f_equal; f_equal; auto using cmin_comm, cmax_comm.
Qed.

Lemma union_makeEmpty_r b : union b makeEmpty = b.
Proof.
  destruct b as [[] []]. unfold union, vmin, vmax; simpl.
  by rewrite !cmin_PosInf, !cmax_NegInf.
Qed.

Lemma union_makeEmpty_l b : union makeEmpty b = b.
Proof. by rewrite union_comm, union_makeEmpty_r. Qed.

Lemma isEmpty_makeEmpty : isEmpty makeEmpty = true.
Proof. reflexivity. Qed.

(** Expanding by a point is the union with the box of that point. *)
Lemma expandByPoint_union b p : expandByPoint b p = union b (box3 p p).
Proof. reflexivity. Qed.

Lemma expandByPoints_union ps : forall b,
  fold_left expandByPoint ps b
  = union b (fold_left expandByPoint ps makeEmpty).
Proof.
  induction ps as [|p ps IH]; intros b; simpl.
  - by rewrite union_makeEmpty_r.
  - rewrite (IH (expandByPoint b p)), (IH (expandByPoint makeEmpty p)).
    rewrite !expandByPoint_union, union_makeEmpty_l.
    by rewrite union_assoc.
Qed.

Lemma expandByGeometry_union g b :
  expandByGeometry b g = union b (expandByGeometry makeEmpty g).
Proof.
  destruct g as [g|]; simpl.
  - apply expandByPoints_union.
  - by rewrite union_makeEmpty_r.
Qed.

Lemma expandByNodes_union ns : forall b,
  fold_left (fun b n => expandByGeometry b (geometry_of n)) ns b
  = union b
      (fold_left (fun b n => expandByGeometry b (geometry_of n)) ns makeEmpty).
Proof.
  induction ns as [|n ns IH]; intros b; simpl.
  - by rewrite union_makeEmpty_r.
  - rewrite (IH (expandByGeometry b _)), (IH (expandByGeometry makeEmpty _)).
    rewrite (expandByGeometry_union (geometry_of n) b).
    by rewrite union_assoc.
Qed.

(** Expanding a box by an object is the union with the object's box. *)
Lemma expandByObject_union b o :
  expandByObject b o = union b (expandByObject makeEmpty o).
Proof. apply expandByNodes_union. Qed.

End Boxes.

(** ** The scene's aggregate bounding box *)

Section Scene.

Import THREE CVScene.

Lemma expandByModels_union models : forall b,
  fold_left (fun box model => expandByObject box (object3D model)) models b
  = union b (unionOfModels models).
Proof.
  induction models as [|m models IH]; intros b; simpl.
  - by rewrite union_makeEmpty_r.
  - rewrite IH, (expandByObject_union b). unfold boxOfModel.
    by rewrite union_assoc.
Qed.

Lemma updateModelBoundingBox_box models s :
  modelBoundingBox (updateModelBoundingBox models s) = unionOfModels models.
Proof.
  unfold updateModelBoundingBox, modelBoundingBox; simpl.
  by rewrite expandByModels_union, union_makeEmpty_l.
Qed.

Lemma updateModelBoundingBox_emitted models s :
  emitted (updateModelBoundingBox models s) = emitted s ++ ["bounding-box"].
Proof. reflexivity. Qed.

Lemma onModelComponent_emitted models event s :
  emitted (onModelComponent models event s) = emitted s ++ ["bounding-box"].
Proof.
  unfold onModelComponent.
  rewrite updateModelBoundingBox_emitted.
  by destruct (add event), (remove event).
Qed.

End Scene.

(** C8.  Whatever the event (a model added, a model removed), after
    [onModelComponent] the scene's model bounding box is the union of the
    boxes of the models the graph holds at that moment, and one more
    "bounding-box" event has been emitted, after everything emitted
    before; the same holds after [update] when the units have changed.
    With no model left the box is the empty box; with a single model it
    is that model's box. *)
Theorem scene_bounding_box_is_union
    (models : list CVScene.CVModel2) (event : CVScene.IComponentEvent)
    (s : CVScene.t) :
  CVScene.modelBoundingBox (CVScene.onModelComponent models event s)
  = CVScene.unionOfModels models
  /\ CVScene.emitted (CVScene.onModelComponent models event s)
     = CVScene.emitted s ++ ["bounding-box"]
  /\ (CVScene.changed (CVScene.units s) = true ->
      CVScene.modelBoundingBox (fst (CVScene.update models s))
      = CVScene.unionOfModels models
      /\ CVScene.emitted (fst (CVScene.update models s))
         = CVScene.emitted s ++ ["bounding-box"])
  /\ (CVScene.modelBoundingBox (CVScene.onModelComponent [] event s)
      = THREE.makeEmpty
      /\ THREE.isEmpty
           (CVScene.modelBoundingBox (CVScene.onModelComponent [] event s))
         = true)
  /\ (forall model,
        CVScene.modelBoundingBox (CVScene.onModelComponent [model] event s)
        = CVScene.boxOfModel model).
Proof.
  assert (Hbox : forall ms,
    CVScene.modelBoundingBox (CVScene.onModelComponent ms event s)
    = CVScene.unionOfModels ms).
  { intros ms. unfold CVScene.onModelComponent.
    apply updateModelBoundingBox_box. }
  split; [apply Hbox|].
  split; [apply onModelComponent_emitted|].
  split.
  { intros Hchanged. unfold CVScene.update. rewrite Hchanged. cbn [fst].
    split; [apply updateModelBoundingBox_box | reflexivity]. }
  split.
  { rewrite Hbox. split; reflexivity. }
  intros model. rewrite Hbox. simpl. apply union_makeEmpty_r.
Qed.

(** ** The loading signal *)

Section Loading.

Import CVAssetLoader.

Lemma loading_inv_initial : loading_inv 0 initial.
Proof. repeat split; simpl; intros; discriminate. Qed.

Lemma loading_inv_itemStart url n m :
  loading_inv n m -> loading_inv (S n) (itemStart url m).
Proof.
  intros (Hcount & Hflag & Hsig).
  split; [simpl; lia|]. split; [|intros _; lia].
  cbn [isLoading itemStart]. symmetry. apply bool_decide_eq_true_2. lia.
Qed.

Lemma loading_inv_itemEnd url n m :
  loading_inv (S n) m -> loading_inv n (itemEnd url m).
Proof.
  intros (Hcount & Hflag & Hsig).
  unfold itemEnd, onLoadingProgress, onLoadingCompleted.
  destruct (Nat.eqb_spec (S (itemsLoaded m)) (itemsTotal m)) as [He|Hne].
  - split; [simpl; lia|]. split; [|simpl; discriminate].
    cbn [isLoading]. symmetry. apply bool_decide_eq_false_2. lia.
  - split; [simpl; lia|]. split; [|simpl; intros _; lia].
    cbn [isLoading]. rewrite Hflag. apply bool_decide_ext. lia.
Qed.

Lemma loading_inv_itemError url n m :
  loading_inv n m -> loading_inv n (itemError url m).
Proof.
  intros (Hcount & Hflag & Hsig).
  split; [done|]. split; [done|]. simpl. discriminate.
Qed.

Lemma loading_inv_run es : forall n m,
  well_formed n es = true -> loading_inv n m ->
  exists n', loading_inv n' (run es m).
Proof.
  induction es as [|e es IH]; intros n m Hwf Hinv; simpl.
  - by exists n.
  - destruct e as [url|url|url]; simpl in Hwf.
    + apply (IH (S n)); [done|]. by apply loading_inv_itemStart.
    + destruct n as [|n]; [discriminate|].
      apply (IH n); [done|]. by apply loading_inv_itemEnd.
    + apply (IH n); [done|]. by apply loading_inv_itemError.
Qed.

Lemma loading_inv_outstanding n m :
  loading_inv n m -> outstanding m = n.
Proof. intros (Hcount & _). unfold outstanding. lia. Qed.

End Loading.

(** C3, as the code has it.  Along every sequence of loader events that
    starts from a fresh manager: the loading output goes true when a
    load starts while none is outstanding; it goes false when the end of
    a load empties the queue; it goes false at every error, whatever is
    still in flight; it is true only while loads are outstanding; and
    nothing else than an error or the end that empties the queue turns
    it from true to false. *)
Theorem loading_signal_follows_callbacks (es : list CVAssetLoader.item_event) :
  CVAssetLoader.well_formed 0 es = true ->
  let m := CVAssetLoader.run es CVAssetLoader.initial in
  let loading m := CVAssetLoader.loading (CVAssetLoader.assetLoader m) in
  (CVAssetLoader.outstanding m = 0 ->
   forall url, loading (CVAssetLoader.itemStart url m) = true)
  /\ (CVAssetLoader.outstanding m = 1 ->
      forall url, loading (CVAssetLoader.itemEnd url m) = false)
  /\ (forall url, loading (CVAssetLoader.itemError url m) = false)
  /\ (loading m = true -> 0 < CVAssetLoader.outstanding m)
  /\ (forall e,
        loading m = true -> loading (CVAssetLoader.step m e) = false ->
        (exists url, e = CVAssetLoader.ItemError url)
        \/ (exists url, e = CVAssetLoader.ItemEnd url
                        /\ CVAssetLoader.outstanding (CVAssetLoader.step m e) = 0)).
Proof.
  intros Hwf m loading.
  destruct (loading_inv_run es 0 CVAssetLoader.initial Hwf loading_inv_initial)
    as (n & Hinv).
  fold m in Hinv.
  pose proof (loading_inv_outstanding n m Hinv) as Hout.
  destruct Hinv as (Hcount & Hflag & Hsig).
  split.
  { intros H0 url. subst loading. cbn.
    rewrite Hflag, bool_decide_eq_false_2 by lia. reflexivity. }
  split.
  { intros H1 url. subst loading. unfold CVAssetLoader.itemEnd.
    replace (S (CVAssetLoader.itemsLoaded m) =? CVAssetLoader.itemsTotal m)%nat
      with true by (symmetry; apply Nat.eqb_eq; lia).
    reflexivity. }
  split; [reflexivity|].
  split; [intros H; rewrite Hout; by apply Hsig|].
  intros e Hon Hoff. subst loading. cbn beta in *.
  destruct e as [url|url|url]; [exfalso | right | left; by exists url].
  - cbn in Hoff. rewrite Hflag, bool_decide_eq_true_2 in Hoff by auto.
    congruence.
  - exists url. split; [done|].
    cbn [CVAssetLoader.step] in *. unfold CVAssetLoader.itemEnd in *.
    unfold CVAssetLoader.onLoadingProgress in *.
    destruct (Nat.eqb_spec (S (CVAssetLoader.itemsLoaded m))
                           (CVAssetLoader.itemsTotal m)) as [He|Hne].
    + unfold CVAssetLoader.outstanding. simpl. lia.
    + simpl in Hoff. congruence.
Qed.

(** ** Construction, [addAsset] and [toData] *)

(** C10.  Without [assetData] the constructor throws; it returns only
    when [assetData] is given, and then the derivative has one asset per
    entry of [assetData] (none for an empty array), no model and an
    empty bounding box. *)
Theorem constructor_needs_assetData `{Asset.Impl}
    (usage : Derivative.EDerivativeUsage)
    (quality : Derivative.EDerivativeQuality)
    (assetData : option (list Item.IAsset)) :
  (assetData = None ->
   exists message,
     Derivative.constructor usage quality assetData = JS.Throws message)
  /\ (forall d,
        Derivative.constructor usage quality assetData = JS.Returns d ->
        exists l,
          assetData = Some l
          /\ Derivative.assets d = List.map (fun data => Asset.new (Some data)) l
          /\ length (Derivative.assets d) = length l
          /\ Derivative.model d = None
          /\ Derivative.boundingBox d = THREE.makeEmpty
          /\ THREE.isEmpty (Derivative.boundingBox d) = true
          /\ Derivative.usage d = usage
          /\ Derivative.quality d = quality).
Proof.
  split.
  - intros ->. by eexists.
  - intros d Hd. destruct assetData as [l|]; [|discriminate].
    exists l. simpl in Hd. injection Hd as <-. simpl.
    by rewrite length_map.
Qed.

Lemma constructor_needs_assetData_witness :
  (exists message,
     @Derivative.constructor AssetReference.impl Derivative.Editorial
       Derivative.High None = JS.Throws message).
Proof.
  apply (proj1 (@constructor_needs_assetData AssetReference.impl
                  Derivative.Editorial Derivative.High None)).
  reflexivity.
Defined.

(** C6.  [addAsset] with an empty URI throws and leaves the derivative
    as it was; with any other URI it returns, and the asset list is the
    old list followed by one new asset with that URI and type. *)
Theorem addAsset_throws_or_appends `{Asset.Impl}
    (uri : string) (type : Asset.EAssetType)
    (mapType : option Asset.EMapType) (d : Derivative.t) :
  (uri = EmptyString ->
   Derivative.addAsset uri type mapType d
   = (JS.Throws "uri must be specified", d))
  /\ (uri <> EmptyString ->
      exists asset,
        Derivative.addAsset uri type mapType d
        = (JS.Returns tt,
           Derivative.set_assets d (Derivative.assets d ++ [asset]))
        /\ Derivative.assets (snd (Derivative.addAsset uri type mapType d))
           = Derivative.assets d ++ [asset]
        /\ Asset.uri asset = uri
        /\ Asset.type asset = Some type).
Proof.
  unfold Derivative.addAsset. split.
  - intros ->. reflexivity.
  - intros Hne. apply String.eqb_neq in Hne. rewrite Hne.
    eexists. split; [reflexivity|]. split; [reflexivity|].
    destruct mapType as [mt|]; [case_bool_decide|]; done.
Qed.

Lemma addAsset_throws_or_appends_witness :
  @Derivative.addAsset AssetReference.impl EmptyString Asset.Model None
    (Sample.derivative [Sample.geoAsset])
  = (JS.Throws "uri must be specified", Sample.derivative [Sample.geoAsset])
  /\ exists asset,
       Derivative.assets
         (snd (@Derivative.addAsset AssetReference.impl "ewer.glb" Asset.Model
                 None (Sample.derivative [Sample.geoAsset])))
       = [Sample.geoAsset] ++ [asset].
Proof.
  split.
  - apply (proj1 (@addAsset_throws_or_appends AssetReference.impl EmptyString
                    Asset.Model None (Sample.derivative [Sample.geoAsset]))).
    reflexivity.
  - destruct (proj2 (@addAsset_throws_or_appends AssetReference.impl
                       "ewer.glb" Asset.Model None
                       (Sample.derivative [Sample.geoAsset])))
      as (asset & _ & Hassets & _); [discriminate|].
    by exists asset.
Defined.

Section Serialization.

Context `{Asset.Impl}.

Lemma usage_name_Editorial :
  JS.get_num Derivative.EDerivativeUsage_enum
    (Derivative.usage_index Derivative.Editorial) = JS.Str "Editorial".
Proof. reflexivity. Qed.

Lemma quality_name_High :
  JS.get_num Derivative.EDerivativeQuality_enum
    (Derivative.quality_index Derivative.High) = JS.Str "High".
Proof. reflexivity. Qed.

(** Every member's index is mapped back to that member's name. *)
Lemma usage_name_index u :
  exists name,
    JS.get_num Derivative.EDerivativeUsage_enum (Derivative.usage_index u)
    = JS.Str name
    /\ JS.get Derivative.EDerivativeUsage_enum name
       = JS.Num (Derivative.usage_index u).
Proof. destruct u; eexists; split; reflexivity. Qed.

Lemma quality_name_index q :
  exists name,
    JS.get_num Derivative.EDerivativeQuality_enum (Derivative.quality_index q)
    = JS.Str name
    /\ JS.get Derivative.EDerivativeQuality_enum name
       = JS.Num (Derivative.quality_index q).
Proof. destruct q; eexists; split; reflexivity. Qed.

Lemma map_roundtrip (l : list Item.IAsset) :
  Forall (fun data => Asset.toData (Asset.new (Some data)) = data) l ->
  List.map Asset.toData (List.map (fun data => Asset.new (Some data)) l) = l.
Proof.
  induction 1 as [|data l Hdata _ IH]; simpl; [done|].
  by rewrite Hdata, IH.
Qed.

End Serialization.

(** C5.  A derivative constructed from persisted data whose usage is
    "Editorial" and whose quality is "High" serializes to usage
    "Editorial", quality "High" and the assets' own serializations; when
    each asset serializes back to the data it was constructed from,
    [toData] gives back the persisted data exactly. *)
Theorem toData_inverts_fromData `{Asset.Impl} (data : Item.IDerivative) :
  Item.usage data = JS.Str "Editorial" ->
  Item.quality data = JS.Str "High" ->
  exists d,
    DerivativeData.fromData data = JS.Returns d
    /\ Derivative.constructor Derivative.Editorial Derivative.High
         (Some (Item.assets data)) = JS.Returns d
    /\ Item.usage (Derivative.toData d) = JS.Str "Editorial"
    /\ Item.quality (Derivative.toData d) = JS.Str "High"
    /\ Item.assets (Derivative.toData d)
       = List.map Asset.toData (Derivative.assets d)
    /\ (Forall (fun a => Asset.toData (Asset.new (Some a)) = a)
               (Item.assets data) ->
        Derivative.toData d = data).
Proof.
  intros Husage Hquality. destruct data as [u q l]. simpl in *. subst u q.
  eexists. split; [reflexivity|]. split; [reflexivity|].
  split; [reflexivity|]. split; [reflexivity|]. split; [reflexivity|].
  intros Hround. unfold Derivative.toData. simpl.
  by rewrite map_roundtrip.
Qed.

Lemma toData_inverts_fromData_witness :
  exists d,
    @DerivativeData.fromData AssetReference.impl Sample.persisted = JS.Returns d
    /\ @Derivative.toData AssetReference.impl d = Sample.persisted.
Proof.
  destruct (@toData_inverts_fromData AssetReference.impl Sample.persisted
              eq_refl eq_refl)
    as (d & Hfrom & _ & _ & _ & _ & Hround).
  exists d. split; [exact Hfrom|].
  apply Hround. repeat constructor.
Defined.

(** ** [load] *)

Section Load.

Import THREE Derivative.

Lemma find_first {A} (f : A -> bool) (l : list A) :
  (exists a, a ∈ l /\ f a = true) ->
  exists before m after,
    List.find f l = Some m /\ l = before ++ m :: after /\ f m = true
    /\ Forall (fun a => f a = false) before.
Proof.
  induction l as [|x l IH]; intros (a & Hin & Hfa).
  - by apply elem_of_nil in Hin.
  - simpl. destruct (f x) eqn:Hfx.
    + exists [], x, l. by repeat split.
    + apply elem_of_cons in Hin as [->|Hin]; [congruence|].
      destruct IH as (before & m & after & Hfind & -> & Hm & Hbefore);
        [by exists a|].
      exists (x :: before), m, after. repeat split; auto.
Qed.

Lemma findAsset_first type d :
  (exists a, a ∈ assets d /\ Asset.type a = Some type) ->
  exists before m after,
    findAsset type d = Some m
    /\ assets d = before ++ m :: after
    /\ Asset.type m = Some type
    /\ Forall (fun a => Asset.type a <> Some type) before.
Proof.
  intros (a & Hin & Ha). unfold findAsset.
  destruct (find_first
              (fun asset => bool_decide (Asset.type asset = Some type))
              (assets d))
    as (before & m & after & Hfind & Heq & Hm & Hbefore).
  { exists a. split; [done|]. by apply bool_decide_eq_true_2. }
  exists before, m, after. repeat split; auto.
  - by apply bool_decide_eq_true_1 in Hm.
  - eapply Forall_impl; [exact Hbefore|].
    intros x Hx. simpl in Hx. by apply bool_decide_eq_false_1 in Hx.
Qed.

End Load.

(** C4.  When the asset list contains a Model-type asset, [load] issues
    one request only, to the model loader, for the first such asset.  If
    that load resolves, the promise [load] returned resolves with the
    derivative itself, whose model is the loaded object as it came and
    whose bounding box is the box of that object; if it rejects or never
    settles, so does [load], and the derivative is unchanged.  No
    geometry and no texture is requested. *)
Theorem load_model_asset_only
    (newUberMaterial : THREE.UberMaterial)
    (loadingManager : Derivative.LoadingManager)
    (assetPath : option string) (d : Derivative.t) :
  (exists a, a ∈ Derivative.assets d /\ Asset.type a = Some Asset.Model) ->
  exists before modelAsset after,
    Derivative.assets d = before ++ modelAsset :: after
    /\ Asset.type modelAsset = Some Asset.Model
    /\ Forall (fun a => Asset.type a <> Some Asset.Model) before
    /\ let r := Derivative.load newUberMaterial loadingManager assetPath d in
       Derivative.requests r = [Derivative.RequestModel modelAsset assetPath]
       /\ match Derivative.loadModel loadingManager modelAsset assetPath with
          | JS.Resolved object =>
              Derivative.result r
              = Derivative.ReturnsPromise (JS.Resolved (Derivative.this r))
              /\ Derivative.model (Derivative.this r) = Some object
              /\ Derivative.boundingBox (Derivative.this r)
                 = THREE.expandByObject THREE.makeEmpty object
              /\ Derivative.assets (Derivative.this r) = Derivative.assets d
          | JS.Rejected e =>
              Derivative.result r = Derivative.ReturnsPromise (JS.Rejected e)
              /\ Derivative.this r = d
          | JS.Pending =>
              Derivative.result r = Derivative.ReturnsPromise JS.Pending
              /\ Derivative.this r = d
          end.
Proof.
  intros Hmodel.
  destruct (findAsset_first Asset.Model d Hmodel)
    as (before & m & after & Hfind & Heq & Hm & Hbefore).
  exists before, m, after. repeat (split; [done|]).
  unfold Derivative.load. rewrite Hfind.
  by destruct (Derivative.loadModel loadingManager m assetPath).
Qed.

Lemma load_model_asset_only_witness :
  let r :=
    Derivative.load Sample.material Sample.loadingManager None
      (Sample.derivative
         [Sample.geoAsset; Sample.modelAsset; Sample.colorAsset]) in
  Derivative.requests r = [Derivative.RequestModel Sample.modelAsset None]
  /\ Derivative.model (Derivative.this r) = Some Sample.object.
Proof.
  destruct (load_model_asset_only Sample.material Sample.loadingManager None
              (Sample.derivative
                 [Sample.geoAsset; Sample.modelAsset; Sample.colorAsset]))
    as (before & m & after & Heq & Hm & Hbefore & Hreq & Hres).
  { exists Sample.modelAsset. split; [|reflexivity].
    apply list_elem_of_In. simpl. auto. }
  destruct before as [|b0 [|b1 before]].
  - injection Heq as <- _. discriminate Hm.
  - injection Heq as _ <- _. simpl in Hres. split; [exact Hreq|].
    apply Hres.
  - injection Heq as <- <- _.
    apply Forall_cons in Hbefore as [_ Hbefore].
    apply Forall_cons in Hbefore as [Hb1 _]. by destruct Hb1.
Defined.

Lemma scene_bounding_box_is_union_witness :
  CVScene.modelBoundingBox
    (fst (CVScene.update [Sample.sceneModel] Sample.scene))
  = CVScene.unionOfModels [Sample.sceneModel].
Proof.
  destruct (scene_bounding_box_is_union [Sample.sceneModel] Sample.added
              Sample.scene) as (_ & _ & Hupdate & _).
  apply Hupdate. reflexivity.
Defined.

(** ** Texture assignment *)

Section Textures.

Import THREE Derivative.

Lemma first_rejection_In {A} (ps : list (JS.promise A)) e p :
  p ∈ ps -> p = JS.Rejected e -> exists e', JS.first_rejection ps = Some e'.
Proof.
  induction ps as [|q ps IH]; intros Hin ->.
  - by apply elem_of_nil in Hin.
  - apply elem_of_cons in Hin as [<-|Hin]; simpl; [by eexists|].
    destruct q; eauto.
Qed.

(** One rejection is enough for [Promise.all] to reject, and the
    [catch] of [load] then resolves with no texture at all. *)
Lemma all_catch_rejected {A B} (f : A -> JS.promise B) (l : list A) a e :
  a ∈ l -> f a = JS.Rejected e ->
  JS.catch (JS.all (List.map f l)) (fun _ => []) = JS.Resolved [].
Proof.
  intros Hin Hrej. unfold JS.all.
  destruct (first_rejection_In (List.map f l) e (f a)) as (e' & ->); auto.
  apply list_elem_of_In, in_map, list_elem_of_In, Hin.
Qed.

Lemma all_resolved {A B} (f : A -> JS.promise B) (l : list A) (vs : list B) :
  Forall2 (fun a v => f a = JS.Resolved v) l vs ->
  JS.all (List.map f l) = JS.Resolved vs.
Proof.
  intros Hall.
  assert (Hnone : JS.first_rejection (List.map f l) = None).
  { induction Hall as [|a v l vs Ha _ IH]; simpl; [done|]. by rewrite Ha. }
  assert (Hvals : JS.all_values (List.map f l) = Some vs).
  { induction Hall as [|a v l vs Ha _ IH]; simpl; [done|].
    rewrite Ha. simpl in *. rewrite IH; [done|].
    rewrite Ha in Hnone. exact Hnone. }
  unfold JS.all. by rewrite Hnone, Hvals.
Qed.

(** The loop started at index [i] reads the textures from [i] on. *)
Lemma assignTextures_from_drop assets : forall i textures material,
  assignTextures_from i assets textures material
  = assignTextures_from 0 assets (drop i textures) material.
Proof.
  induction assets as [|a assets IH]; intros i textures material; simpl.
  - reflexivity.
  - rewrite (IH (S i)), (IH 1), drop_drop, lookup_drop.
    by rewrite Nat.add_0_r, Nat.add_1_r.
Qed.

Lemma assignTextures_cons a assets t textures material :
  assignTextures (a :: assets) (t :: textures) material
  = assignTextures assets textures
      (assignTexture (Asset.mapType a) (Some t) material).
Proof.
  unfold assignTextures. simpl. by rewrite assignTextures_from_drop.
Qed.

(** Assets of other map types leave the metalness and roughness slots
    alone. *)
Lemma assignTextures_from_other assets : forall i textures material,
  List.filter isMetallicRoughness assets = [] ->
  metalnessMap (assignTextures_from i assets textures material)
  = metalnessMap material
  /\ roughnessMap (assignTextures_from i assets textures material)
     = roughnessMap material.
Proof.
  induction assets as [|a assets IH]; intros i textures material Hnone;
    simpl in *; [done|].
  unfold isMetallicRoughness in Hnone at 1.
  case_bool_decide as Ha; [discriminate|].
  destruct (IH (S i) textures
              (assignTexture (Asset.mapType a) (textures !! i) material) Hnone)
    as [-> ->].
  by destruct (Asset.mapType a) as [[]|].
Qed.

(** With all textures loaded and one metallic-roughness asset among the
    image assets, both slots end up holding that asset's texture. *)
Lemma assignTextures_metallicRoughness (load : Asset.t -> JS.promise Texture)
    assets textures asset t : forall material,
  Forall2 (fun a v => load a = JS.Resolved v) assets textures ->
  List.filter isMetallicRoughness assets = [asset] ->
  load asset = JS.Resolved t ->
  metalnessMap (assignTextures assets textures material) = Some t
  /\ roughnessMap (assignTextures assets textures material) = Some t.
Proof.
  intros material Hall. revert material.
  induction Hall as [|a v assets textures Ha _ IH];
    intros material Hone Ht; simpl in Hone; [discriminate|].
  rewrite assignTextures_cons.
  unfold isMetallicRoughness in Hone at 1.
  case_bool_decide as Hmr.
  - injection Hone as -> Hnone.
    assert (v = t) as -> by congruence.
    destruct (assignTextures_from_other assets 0 textures
                (assignTexture (Asset.mapType asset) (Some t) material) Hnone)
      as [Hm Hr].
    unfold assignTextures. rewrite Hm, Hr, Hmr. by split.
  - by apply IH.
Qed.

Lemma fallbackShading_slots material :
  slots (fallbackShading material) = slots material.
Proof. unfold fallbackShading. by case_bool_decide. Qed.

(** With no texture at all, every slot an asset names is cleared and
    every other slot is left as it was. *)
Lemma assignTextures_from_nil assets : forall i material,
  slots (assignTextures_from i assets [] material)
  = [ if named Asset.Color assets then None else map material;
      if named Asset.Occlusion assets then None else aoMap material;
      if named Asset.Emissive assets then None else emissiveMap material;
      if named Asset.MetallicRoughness assets then None
      else metalnessMap material;
      if named Asset.MetallicRoughness assets then None
      else roughnessMap material;
      if named Asset.Normal assets then None else normalMap material ].
Proof.
  induction assets as [|a assets IH]; intros i material; simpl; [done|].
  rewrite IH.
  destruct (Asset.mapType a) as [[]|]; simpl;
    repeat (case_bool_decide; try congruence); simpl;
    by repeat match goal with |- context [if ?b then _ else _] => destruct b end.
Qed.

End Textures.

(** C7, the claim at two concrete inputs, each a derivative with a
    Geometry asset and one Image asset of map type MetallicRoughness.
    With a Model asset beside them, [load] resolves on the model path:
    the only request is the one for the model, no texture is requested
    and the loaded object is stored as it came, its material without a
    metalness or roughness map.  With a texture load that rejects,
    [load] resolves as well, and both slots of the material are empty. *)
Lemma load_metallicRoughness_not_assigned :
  let withModel :=
    Derivative.load Sample.material Sample.loadingManager None
      (Sample.derivative
         [Sample.geoAsset; Sample.metalAsset; Sample.modelAsset]) in
  let rejected :=
    Derivative.load Sample.material Sample.rejectingManager None
      (Sample.derivative [Sample.geoAsset; Sample.metalAsset]) in
  Derivative.result withModel
  = Derivative.ReturnsPromise (JS.Resolved (Derivative.this withModel))
  /\ Derivative.requests withModel
     = [Derivative.RequestModel Sample.modelAsset None]
  /\ Derivative.model (Derivative.this withModel)
     = Some (THREE.Node None [THREE.Mesh Sample.geometry Sample.material []])
  /\ THREE.metalnessMap Sample.material = None
  /\ THREE.roughnessMap Sample.material = None
  /\ Derivative.result rejected
     = Derivative.ReturnsPromise (JS.Resolved (Derivative.this rejected))
  /\ exists material,
       Derivative.model (Derivative.this rejected)
       = Some (THREE.Mesh Sample.geometry material [])
       /\ THREE.metalnessMap material = None
       /\ THREE.roughnessMap material = None.
Proof.
  cbv zeta. repeat (split; [reflexivity|]).
  eexists. repeat split; reflexivity.
Qed.

(** C7, as the code has it.  On the geometry path (no Model asset, the
    geometry load and every texture load resolve), with one image asset
    of map type MetallicRoughness whose texture is [t], [load] resolves
    with the derivative itself, whose model is a mesh of the loaded
    geometry, and the metalness and the roughness slot of its material
    both hold [t]. *)
Theorem load_metallicRoughness_shared
    (newUberMaterial : THREE.UberMaterial)
    (loadingManager : Derivative.LoadingManager)
    (assetPath : option string) (d : Derivative.t)
    (geoAsset asset : Asset.t) (geometry : THREE.Geometry)
    (textures : list THREE.Texture) (t : THREE.Texture) :
  Derivative.findAsset Asset.Model d = None ->
  Derivative.findAsset Asset.Geometry d = Some geoAsset ->
  Derivative.loadGeometry loadingManager geoAsset assetPath
  = JS.Resolved geometry ->
  Forall2 (fun a v =>
             Derivative.loadTexture loadingManager a assetPath = JS.Resolved v)
          (Derivative.findAssets Asset.Image d) textures ->
  List.filter Derivative.isMetallicRoughness
              (Derivative.findAssets Asset.Image d) = [asset] ->
  Derivative.loadTexture loadingManager asset assetPath = JS.Resolved t ->
  let r := Derivative.load newUberMaterial loadingManager assetPath d in
  exists material,
    Derivative.result r
    = Derivative.ReturnsPromise (JS.Resolved (Derivative.this r))
    /\ Derivative.model (Derivative.this r)
       = Some (THREE.Mesh geometry material [])
    /\ THREE.metalnessMap material = Some t
    /\ THREE.roughnessMap material = Some t.
Proof.
  intros Hmodel Hgeo Hgeometry Hall Hone Ht r. subst r.
  unfold Derivative.load. rewrite Hmodel, Hgeo, Hgeometry.
  rewrite (all_resolved _ _ textures Hall). simpl.
  eexists. split; [reflexivity|]. split; [reflexivity|].
  destruct (assignTextures_metallicRoughness
              (fun a => Derivative.loadTexture loadingManager a assetPath)
              _ textures asset t newUberMaterial Hall Hone Ht) as [Hm Hr].
  pose proof (fallbackShading_slots
                (Derivative.assignTextures
                   (Derivative.findAssets Asset.Image d) textures
                   newUberMaterial)) as Hslots.
  unfold Derivative.slots in Hslots.
  injection Hslots as _ _ _ Hm' Hr' _.
  by rewrite Hm', Hr'.
Qed.

Lemma load_metallicRoughness_shared_witness :
  let r :=
    Derivative.load Sample.material Sample.loadingManager None
      (Sample.derivative [Sample.geoAsset; Sample.metalAsset]) in
  exists material,
    Derivative.model (Derivative.this r)
    = Some (THREE.Mesh Sample.geometry material [])
    /\ THREE.metalnessMap material = Some (THREE.TextureRef 2)
    /\ THREE.roughnessMap material = Some (THREE.TextureRef 2).
Proof.
  destruct (load_metallicRoughness_shared Sample.material
              Sample.loadingManager None
              (Sample.derivative [Sample.geoAsset; Sample.metalAsset])
              Sample.geoAsset Sample.metalAsset Sample.geometry
              [THREE.TextureRef 2] (THREE.TextureRef 2))
    as (material & _ & Hmodel & Hm & Hr);
    try reflexivity.
  - repeat constructor.
  - by exists material.
Defined.

(** C1, the claim at a concrete input: a geometry, a colour map whose
    load resolves and a normal map whose load rejects.  [load] resolves,
    but the colour map, which did load, is not assigned. *)
Lemma load_partial_failure_drops_loaded_map :
  let d :=
    Sample.derivative [Sample.geoAsset; Sample.colorAsset; Sample.normalAsset] in
  let r := Derivative.load Sample.material Sample.loadingManager None d in
  Derivative.loadTexture Sample.loadingManager Sample.colorAsset None
  = JS.Resolved (THREE.TextureRef 1)
  /\ Derivative.loadTexture Sample.loadingManager Sample.normalAsset None
     = JS.Rejected "404"
  /\ Derivative.result r
     = Derivative.ReturnsPromise (JS.Resolved (Derivative.this r))
  /\ exists material,
       Derivative.model (Derivative.this r)
       = Some (THREE.Mesh Sample.geometry material [])
       /\ THREE.map material = None
       /\ THREE.map material <> Some (THREE.TextureRef 1).
Proof.
  cbv zeta. split; [reflexivity|]. split; [reflexivity|].
  split; [reflexivity|]. eexists. split; [reflexivity|].
  split; [reflexivity|discriminate].
Qed.

(** C1, as the code has it.  On the geometry path (no Model asset, the
    geometry load resolves), when the load of one of the image assets
    rejects, [load] still resolves with the derivative itself, and no
    texture is assigned at all: in the material of the mesh, every slot
    named by an image asset is cleared and every other slot holds what
    the fresh material held. *)
Theorem load_texture_rejection_assigns_none
    (newUberMaterial : THREE.UberMaterial)
    (loadingManager : Derivative.LoadingManager)
    (assetPath : option string) (d : Derivative.t)
    (geoAsset asset : Asset.t) (geometry : THREE.Geometry) (e : string) :
  Derivative.findAsset Asset.Model d = None ->
  Derivative.findAsset Asset.Geometry d = Some geoAsset ->
  Derivative.loadGeometry loadingManager geoAsset assetPath
  = JS.Resolved geometry ->
  asset ∈ Derivative.findAssets Asset.Image d ->
  Derivative.loadTexture loadingManager asset assetPath = JS.Rejected e ->
  let r := Derivative.load newUberMaterial loadingManager assetPath d in
  let imageAssets := Derivative.findAssets Asset.Image d in
  let cleared mapType (slot : THREE.UberMaterial -> option THREE.Texture) :=
    if Derivative.named mapType imageAssets then None
    else slot newUberMaterial in
  exists material,
    Derivative.result r
    = Derivative.ReturnsPromise (JS.Resolved (Derivative.this r))
    /\ Derivative.model (Derivative.this r)
       = Some (THREE.Mesh geometry material [])
    /\ Derivative.slots material
       = [ cleared Asset.Color THREE.map;
           cleared Asset.Occlusion THREE.aoMap;
           cleared Asset.Emissive THREE.emissiveMap;
           cleared Asset.MetallicRoughness THREE.metalnessMap;
           cleared Asset.MetallicRoughness THREE.roughnessMap;
           cleared Asset.Normal THREE.normalMap ].
Proof.
  intros Hmodel Hgeo Hgeometry Hin Hrej r imageAssets cleared.
  subst r cleared imageAssets.
  unfold Derivative.load. rewrite Hmodel, Hgeo, Hgeometry.
  rewrite (all_catch_rejected _ _ asset e Hin Hrej). simpl.
  eexists. split; [reflexivity|]. split; [reflexivity|].
  rewrite fallbackShading_slots. apply assignTextures_from_nil.
Qed.

Lemma load_texture_rejection_assigns_none_witness :
  let r :=
    Derivative.load Sample.material Sample.loadingManager None
      (Sample.derivative
         [Sample.geoAsset; Sample.colorAsset; Sample.normalAsset]) in
  exists material,
    Derivative.result r
    = Derivative.ReturnsPromise (JS.Resolved (Derivative.this r))
    /\ Derivative.slots material = [None; None; None; None; None; None].
Proof.
  destruct (load_texture_rejection_assigns_none Sample.material
              Sample.loadingManager None
              (Sample.derivative
                 [Sample.geoAsset; Sample.colorAsset; Sample.normalAsset])
              Sample.geoAsset Sample.normalAsset Sample.geometry "404")
    as (material & Hres & _ & Hslots);
    try reflexivity.
  - apply list_elem_of_In. simpl. auto.
  - exists material. split; [exact Hres|exact Hslots].
Defined.

(** ** [dispose] *)

Section Dispose.

Import THREE Derivative.

Lemma In_releaseMap t slot :
  In (ReleaseTexture t) (releaseMap slot) <-> slot = Some t.
Proof.
  destruct slot as [t'|]; simpl; split; try done.
  - intros [[= ->]|[]]. reflexivity.
  - intros [= ->]. by left.
Qed.

Lemma In_releaseMap_geometry ref slot :
  ~ In (ReleaseGeometry ref) (releaseMap slot).
Proof. destruct slot; simpl; intros H; by destruct H. Qed.

Lemma In_disposeMesh_texture t g m :
  In (ReleaseTexture t) (disposeMesh g m) <-> In (Some t) (slots m).
Proof.
  unfold disposeMesh, slots. simpl.
  rewrite !in_app_iff, !In_releaseMap. intuition (try discriminate; eauto).
Qed.

Lemma In_disposeMesh_geometry ref g m :
  In (ReleaseGeometry ref) (disposeMesh g m) <-> geometry_ref g = ref.
Proof.
  unfold disposeMesh. simpl. rewrite !in_app_iff. split.
  - intros [[= ->]|H]; [done|].
    repeat (destruct H as [H|H];
            [by apply In_releaseMap_geometry in H|]).
    by apply In_releaseMap_geometry in H.
  - intros ->. by left.
Qed.

Lemma In_dispose r o :
  In r (flat_map disposeObject (traverse o))
  <-> exists g m cs, In (Mesh g m cs) (traverse o) /\ In r (disposeMesh g m).
Proof.
  rewrite in_flat_map. split.
  - intros ([g m cs|g cs] & Hin & Hr); simpl in Hr; [|done].
    by exists g, m, cs.
  - intros (g & m & cs & Hin & Hr). by exists (Mesh g m cs).
Qed.

End Dispose.

(** C2, the claim at a concrete input: a derivative loaded from a
    geometry and a colour map.  The second [dispose] releases again the
    geometry and the texture the first one released. *)
Lemma dispose_twice_releases_twice :
  let d :=
    Derivative.this
      (Derivative.load Sample.material Sample.loadingManager None
         (Sample.derivative [Sample.geoAsset; Sample.colorAsset])) in
  let first := Derivative.dispose d in
  let second := Derivative.dispose (Derivative.after first) in
  Derivative.released first
  = [THREE.ReleaseGeometry 7; THREE.ReleaseTexture (THREE.TextureRef 1)]
  /\ Derivative.released second
     = [THREE.ReleaseGeometry 7; THREE.ReleaseTexture (THREE.TextureRef 1)]
  /\ THREE.ReleaseGeometry 7 ∈ Derivative.released first
  /\ THREE.ReleaseGeometry 7 ∈ Derivative.released second.
Proof.
  cbv zeta. split; [reflexivity|]. split; [reflexivity|].
  split; apply list_elem_of_In; simpl; auto.
Qed.

(** C2, as the code has it.  [dispose] returns without throwing and
    leaves the derivative as it was, so a second [dispose] returns as
    well and makes the very release calls of the first once more: one
    on the geometry of every mesh of the model and one on the texture
    of every slot of its material that holds one; a slot that holds
    none gets no call, and without a model nothing is released. *)
Theorem dispose_twice_repeats_releases (d : Derivative.t) :
  let first := Derivative.dispose d in
  let second := Derivative.dispose (Derivative.after first) in
  Derivative.completion first = JS.Returns tt
  /\ Derivative.completion second = JS.Returns tt
  /\ Derivative.after second = d
  /\ Derivative.released second = Derivative.released first
  /\ (forall t,
        THREE.ReleaseTexture t ∈ Derivative.released first
        <-> exists o g m cs,
              Derivative.model d = Some o
              /\ THREE.Mesh g m cs ∈ THREE.traverse o
              /\ Some t ∈ Derivative.slots m)
  /\ (forall ref,
        THREE.ReleaseGeometry ref ∈ Derivative.released first
        <-> exists o g m cs,
              Derivative.model d = Some o
              /\ THREE.Mesh g m cs ∈ THREE.traverse o
              /\ THREE.geometry_ref g = ref).
Proof.
  cbv zeta.
  assert (Hafter : Derivative.after (Derivative.dispose d) = d).
  { unfold Derivative.dispose. by destruct (Derivative.model d). }
  rewrite Hafter.
  split; [unfold Derivative.dispose; by destruct (Derivative.model d)|].
  split; [unfold Derivative.dispose; by destruct (Derivative.model d)|].
  split; [done|]. split; [done|].
  unfold Derivative.dispose.
  destruct (Derivative.model d) as [o|]; simpl.
  - split; intros x; rewrite list_elem_of_In, In_dispose; split.
    + intros (g & m & cs & Hin & Hx). exists o, g, m, cs.
      rewrite !list_elem_of_In. split; [done|]. split; [done|].
      exact (proj1 (In_disposeMesh_texture x g m) Hx).
    + intros (o' & g & m & cs & [= <-] & Hin & Hx). exists g, m, cs.
      rewrite list_elem_of_In in Hin. apply list_elem_of_In in Hx.
      split; [done|].
      exact (proj2 (In_disposeMesh_texture x g m) Hx).
    + intros (g & m & cs & Hin & Hx). exists o, g, m, cs.
      rewrite !list_elem_of_In. split; [done|]. split; [done|].
      exact (proj1 (In_disposeMesh_geometry x g m) Hx).
    + intros (o' & g & m & cs & [= <-] & Hin & Hx). exists g, m, cs.
      rewrite list_elem_of_In in Hin. split; [done|].
      exact (proj2 (In_disposeMesh_geometry x g m) Hx).
  - split; intros x; split.
    + intros Hx. by apply elem_of_nil in Hx.
    + intros (? & ? & ? & ? & ? & _). discriminate.
    + intros Hx. by apply elem_of_nil in Hx.
    + intros (? & ? & ? & ? & ? & _). discriminate.
Qed.


Lemma dispose_twice_repeats_releases_witness :
  let d :=
    Derivative.this
      (Derivative.load Sample.material Sample.loadingManager None
         (Sample.derivative [Sample.geoAsset; Sample.colorAsset])) in
  THREE.ReleaseTexture (THREE.TextureRef 1)
  ∈ Derivative.released (Derivative.dispose d).
Proof.
  cbv zeta.
  destruct (dispose_twice_repeats_releases
              (Derivative.this
                 (Derivative.load Sample.material Sample.loadingManager None
                    (Sample.derivative
                       [Sample.geoAsset; Sample.colorAsset]))))
    as (_ & _ & _ & _ & Htexture & _).
  apply Htexture.
  eexists _, _, _, _. split; [reflexivity|].
  split; apply list_elem_of_In; simpl; auto.
Defined.

(** ** The loading signal, at concrete sequences *)

(** C3, the claim at a concrete sequence: two loads start, then the
    first one fails.  The error sets the loading output to false while
    both loads are still outstanding; when the failed load then ends,
    the output is still false with one load in flight. *)
Lemma loading_cleared_by_error_in_flight :
  let started :=
    [CVAssetLoader.ItemStart "ewer.obj"; CVAssetLoader.ItemStart "ewer.jpg"] in
  let failed := started ++ [CVAssetLoader.ItemError "ewer.jpg"] in
  let ended := failed ++ [CVAssetLoader.ItemEnd "ewer.jpg"] in
  let loading es :=
    CVAssetLoader.loading
      (CVAssetLoader.assetLoader (CVAssetLoader.run es CVAssetLoader.initial)) in
  let outstanding es :=
    CVAssetLoader.outstanding (CVAssetLoader.run es CVAssetLoader.initial) in
  CVAssetLoader.well_formed 0 ended = true
  /\ loading started = true
  /\ outstanding started = 2
  /\ loading failed = false
  /\ outstanding failed = 2
  /\ loading ended = false
  /\ outstanding ended = 1.
Proof. cbv zeta. repeat split; reflexivity. Qed.

Lemma loading_signal_follows_callbacks_witness :
  CVAssetLoader.loading
    (CVAssetLoader.assetLoader
       (CVAssetLoader.itemError "ewer.jpg"
          (CVAssetLoader.run
             [CVAssetLoader.ItemStart "ewer.obj";
              CVAssetLoader.ItemStart "ewer.jpg"]
             CVAssetLoader.initial)))
  = false.
Proof.
  apply (loading_signal_follows_callbacks
           [CVAssetLoader.ItemStart "ewer.obj";
            CVAssetLoader.ItemStart "ewer.jpg"]).
  reflexivity.
Defined.

(** ** Enumerations on read *)

Section Enumerations.

Lemma index_of_None key (E : JS.enum) :
  key ∉ E -> JS.index_of key E = None.
Proof.
  induction E as [|m E IH]; intros Hnot; simpl; [done|].
  apply not_elem_of_cons in Hnot as [Hne Hnot].
  assert (String.eqb m key = false) as -> by (apply String.eqb_neq; congruence).
  by rewrite IH.
Qed.

Lemma name_of_key_None key (E : JS.enum) : forall i,
  (forall j, j < length E -> key <> pretty (i + j)) ->
  JS.name_of_key key i E = None.
Proof.
  induction E as [|m E IH]; intros i Hnot; simpl; [done|].
  assert (String.eqb (pretty i) key = false) as ->.
  { apply String.eqb_neq. intros <-.
    apply (Hnot 0); [simpl; lia|]. by rewrite Nat.add_0_r. }
  apply IH. intros j Hj.
  replace (S i + j) with (i + S j) by lia. apply Hnot. simpl. lia.
Qed.

(** A key that is no property of the enumeration object reads as
    [undefined]. *)
Lemma get_no_property (E : JS.enum) key :
  ~ JS.has_property E key -> JS.get E key = JS.Undefined.
Proof.
  intros Hnot. unfold JS.get.
  rewrite index_of_None.
  - rewrite name_of_key_None.
    + rewrite bool_decide_eq_false_2; [done|].
      intros Hin. apply Hnot. by right.
    + intros j Hj ->. apply Hnot. left. right. by exists j.
  - intros Hin. apply Hnot. left. by left.
Qed.

Lemma get_first (m : string) (E : JS.enum) : JS.get (m :: E) m = JS.Num 0.
Proof. unfold JS.get. simpl. by rewrite String.eqb_refl. Qed.

End Enumerations.

(** C9.  The code at the failing inputs.  ["1"] is not the name of a
    unit and ["2"] is not the name of a reader position, yet
    [EUnitType[scene.units] || 0] and
    [EReaderPosition[data.position] || EReaderPosition.Overlay] read
    them as the strings ["cm"] and ["Right"] (the reverse mapping of the
    enumeration object), and ["toString"] is read as what every object
    inherits under that name: the default is missed and the value set
    is not index 0. *)
Lemma unknown_enum_string_not_index_0 :
  let units key :=
    CVScene.value
      (CVScene.units (CVScene.fromDocument Sample.EUnitType key Sample.scene)) in
  let position key :=
    CVReader.position
      (CVReader.fromData Sample.EReaderPosition
         (Some {| CVReader.data_visible := JS.Undefined;
                  CVReader.data_position := JS.Str key;
                  CVReader.data_url := JS.Undefined |})
         Sample.reader) in
  ("1" ∉ Sample.EUnitType)
  /\ units "1" = JS.Str "cm"
  /\ units "1" <> JS.Num 0
  /\ ("toString" ∉ Sample.EUnitType)
  /\ units "toString" = JS.Inherited
  /\ ("2" ∉ Sample.EReaderPosition)
  /\ position "2" = JS.Str "Right"
  /\ position "2" <> JS.Num 0.
Proof.
  cbv zeta.
  assert (Hnot : forall (key : string) (E : list string),
            bool_decide (key ∈ E) = false -> key ∉ E).
  { intros key E. apply bool_decide_eq_false_1. }
  split; [by apply Hnot|]. split; [reflexivity|]. split; [discriminate|].
  split; [by apply Hnot|]. split; [reflexivity|].
  split; [by apply Hnot|]. split; [reflexivity|discriminate].
Qed.

(** * Further properties *)

(** ** [load]: which path it takes and what it requests *)

Section LoadPaths.

Import THREE Derivative.

Lemma findAsset_None type d :
  findAsset type d = None
  <-> Forall (fun a => Asset.type a <> Some type) (assets d).
Proof.
  unfold findAsset. induction (assets d) as [|a l IH]; simpl.
  - split; [constructor|done].
  - case_bool_decide as Ha.
    + split; [discriminate|]. intros Hall.
      apply Forall_cons in Hall as [Hne _]. by destruct Hne.
    + rewrite IH. split.
      * intros Hall. by constructor.
      * intros Hall. by apply Forall_cons in Hall as [_ Hall].
Qed.

Lemma findAsset_Some type d a :
  findAsset type d = Some a -> a ∈ assets d /\ Asset.type a = Some type.
Proof.
  unfold findAsset. intros Hfind. apply find_some in Hfind as [Hin Ha].
  split; [by apply list_elem_of_In|]. by apply bool_decide_eq_true_1 in Ha.
Qed.

Lemma findAssets_In type d a :
  a ∈ findAssets type d <-> a ∈ assets d /\ Asset.type a = Some type.
Proof.
  unfold findAssets. rewrite !list_elem_of_In, filter_In.
  by rewrite bool_decide_eq_true.
Qed.

(** The promise of the textures, after the [catch], never rejects. *)
Lemma catch_all_not_rejected {A} (ps : list (JS.promise A)) e :
  JS.catch (JS.all ps) (fun _ => []) <> JS.Rejected e.
Proof. unfold JS.catch. by destruct (JS.all ps). Qed.

Lemma first_rejection_None {A} (ps : list (JS.promise A)) :
  JS.first_rejection ps = None <-> forall e, JS.Rejected e ∉ ps.
Proof.
  induction ps as [|p ps IH]; simpl.
  - split; [|done]. intros _ e Hin. by apply elem_of_nil in Hin.
  - destruct p as [a|e'|].
    + rewrite IH. split; intros H e Hin.
      * apply elem_of_cons in Hin as [?|Hin]; [done|]. by apply (H e).
      * apply (H e). by right.
    + split; [discriminate|]. intros H. destruct (H e'). by left.
    + rewrite IH. split; intros H e Hin.
      * apply elem_of_cons in Hin as [?|Hin]; [done|]. by apply (H e).
      * apply (H e). by right.
Qed.

Lemma all_values_None {A} (ps : list (JS.promise A)) :
  JS.all_values ps = None
  <-> exists p, p ∈ ps /\ forall a, p <> JS.Resolved a.
Proof.
  induction ps as [|p ps IH]; simpl.
  - split; [discriminate|]. intros (p & Hin & _). by apply elem_of_nil in Hin.
  - destruct p as [a|e'|].
    + destruct (JS.all_values ps) as [vs|] eqn:Hvs; simpl.
      * split; [discriminate|]. intros (p & Hin & Hp).
        apply elem_of_cons in Hin as [->|Hin]; [by destruct (Hp a)|].
        destruct IH as [_ IH]. discriminate IH. by exists p.
      * split; [|done]. intros _.
        destruct IH as [IH _]. destruct (IH eq_refl) as (p & Hin & Hp).
        exists p. split; [by right|done].
    + split; [|done]. intros _. exists (JS.Rejected e').
      split; [by left|done].
    + split; [|done]. intros _. exists JS.Pending. split; [by left|done].
Qed.

End LoadPaths.

Ltac load_cases newUberMaterial loadingManager assetPath d :=
  unfold Derivative.load;
  destruct (Derivative.findAsset Asset.Model d) as [modelAsset|] eqn:Hmodel;
  [ destruct (Derivative.loadModel loadingManager modelAsset assetPath)
      as [object|error|] eqn:HloadModel
  | destruct (Derivative.findAsset Asset.Geometry d) as [geoAsset|] eqn:Hgeo;
    [ destruct (Derivative.loadGeometry loadingManager geoAsset assetPath)
        as [geometry|error|] eqn:HloadGeometry;
      [ destruct (JS.catch
                    (JS.all
                       (List.map
                          (fun asset =>
                             Derivative.loadTexture loadingManager asset
                               assetPath)
                          (Derivative.findAssets Asset.Image d)))
                    (fun _ => []))
          as [textures|error|] eqn:Htextures
      | | ]
    | ] ];
  cbn.

(** X1.  [load] returns [undefined] instead of a promise exactly when the
    derivative has neither a Model nor a Geometry asset; it then
    requests nothing and leaves the derivative as it was. *)
Theorem load_returns_undefined_iff
    (newUberMaterial : THREE.UberMaterial)
    (loadingManager : Derivative.LoadingManager)
    (assetPath : option string) (d : Derivative.t) :
  let r := Derivative.load newUberMaterial loadingManager assetPath d in
  (Derivative.result r = Derivative.ReturnsUndefined
   <-> Forall (fun a => Asset.type a <> Some Asset.Model
                        /\ Asset.type a <> Some Asset.Geometry)
              (Derivative.assets d))
  /\ (Derivative.result r = Derivative.ReturnsUndefined ->
      Derivative.requests r = [] /\ Derivative.this r = d).
Proof.
  cbv zeta. rewrite Forall_and, <- !findAsset_None.
  load_cases newUberMaterial loadingManager assetPath d;
    (split; [split; [try discriminate; by intros _|intros [? ?]; try discriminate; done]
            |try discriminate; by intros _]).
Qed.

(** X2.  Without a Model asset and with a Geometry asset, the first
    request is the one for the geometry, and the textures of the image
    assets are requested, in the order of the asset list, only once the
    geometry has loaded.  When the geometry load rejects or never
    settles, so does [load], nothing else is requested and the
    derivative is unchanged. *)
Theorem load_requests_geometry_then_textures
    (newUberMaterial : THREE.UberMaterial)
    (loadingManager : Derivative.LoadingManager)
    (assetPath : option string) (d : Derivative.t) (geoAsset : Asset.t) :
  Derivative.findAsset Asset.Model d = None ->
  Derivative.findAsset Asset.Geometry d = Some geoAsset ->
  let r := Derivative.load newUberMaterial loadingManager assetPath d in
  match Derivative.loadGeometry loadingManager geoAsset assetPath with
  | JS.Resolved geometry =>
      Derivative.requests r
      = Derivative.RequestGeometry geoAsset assetPath
        :: List.map (fun a => Derivative.RequestTexture a assetPath)
                    (Derivative.findAssets Asset.Image d)
  | JS.Rejected e =>
      Derivative.requests r = [Derivative.RequestGeometry geoAsset assetPath]
      /\ Derivative.result r = Derivative.ReturnsPromise (JS.Rejected e)
      /\ Derivative.this r = d
  | JS.Pending =>
      Derivative.requests r = [Derivative.RequestGeometry geoAsset assetPath]
      /\ Derivative.result r = Derivative.ReturnsPromise JS.Pending
      /\ Derivative.this r = d
  end.
Proof.
  intros Hm Hg. cbv zeta. unfold Derivative.load. rewrite Hm, Hg.
  destruct (Derivative.loadGeometry loadingManager geoAsset assetPath);
    [|done|done].
  by destruct (JS.catch _ _).
Qed.

Lemma load_requests_geometry_then_textures_witness :
  Derivative.requests
    (Derivative.load Sample.material Sample.loadingManager None
       (Sample.derivative
          [Sample.colorAsset; Sample.geoAsset; Sample.normalAsset]))
  = [Derivative.RequestGeometry Sample.geoAsset None;
     Derivative.RequestTexture Sample.colorAsset None;
     Derivative.RequestTexture Sample.normalAsset None].
Proof.
  apply (load_requests_geometry_then_textures Sample.material
           Sample.loadingManager None
           (Sample.derivative
              [Sample.colorAsset; Sample.geoAsset; Sample.normalAsset])
           Sample.geoAsset); reflexivity.
Defined.

(** X3.  Once the geometry has loaded, [load] never rejects, whatever
    the texture loads do: it resolves, or it stays pending, and it stays
    pending exactly when no texture load rejects and one of them never
    settles. *)
Theorem load_textures_never_reject
    (newUberMaterial : THREE.UberMaterial)
    (loadingManager : Derivative.LoadingManager)
    (assetPath : option string) (d : Derivative.t) (geoAsset : Asset.t)
    (geometry : THREE.Geometry) :
  Derivative.findAsset Asset.Model d = None ->
  Derivative.findAsset Asset.Geometry d = Some geoAsset ->
  Derivative.loadGeometry loadingManager geoAsset assetPath
  = JS.Resolved geometry ->
  let r := Derivative.load newUberMaterial loadingManager assetPath d in
  let loadTexture a := Derivative.loadTexture loadingManager a assetPath in
  (forall e, Derivative.result r <> Derivative.ReturnsPromise (JS.Rejected e))
  /\ Derivative.result r <> Derivative.ReturnsUndefined
  /\ (Derivative.result r = Derivative.ReturnsPromise JS.Pending
      <-> (forall a e, a ∈ Derivative.findAssets Asset.Image d ->
                       loadTexture a <> JS.Rejected e)
          /\ exists a, a ∈ Derivative.findAssets Asset.Image d
                       /\ loadTexture a = JS.Pending).
Proof.
  intros Hm Hg Hgeometry. cbv zeta.
  set (imgs := Derivative.findAssets Asset.Image d).
  set (f := fun a => Derivative.loadTexture loadingManager a assetPath).
  assert (Hpending :
    JS.catch (JS.all (List.map f imgs)) (fun _ => []) = JS.Pending
    <-> (forall a e, a ∈ imgs -> f a <> JS.Rejected e)
        /\ exists a, a ∈ imgs /\ f a = JS.Pending).
  { unfold JS.catch, JS.all.
    destruct (JS.first_rejection (List.map f imgs)) as [e|] eqn:Hrej.
    - split; [discriminate|]. intros [Hno _].
      assert (Hsome : JS.first_rejection (List.map f imgs) <> None)
        by congruence.
      destruct Hsome. apply first_rejection_None. intros e' Hin.
      apply list_elem_of_In, in_map_iff in Hin as (a & Ha & Hin).
      apply list_elem_of_In in Hin. by apply (Hno a e').
    - pose proof (proj1 (first_rejection_None _) Hrej) as Hno.
      destruct (JS.all_values (List.map f imgs)) as [vs|] eqn:Hvals.
      + split; [discriminate|]. intros [_ (a & Hin & Ha)].
        assert (Hnone : JS.all_values (List.map f imgs) = None).
        { apply all_values_None. exists JS.Pending. split; [|done].
          rewrite <- Ha. apply list_elem_of_In, in_map.
          by apply list_elem_of_In. }
        congruence.
      + split; [|done]. intros _. split.
        * intros a e Hin Ha. apply (Hno e). rewrite <- Ha.
          apply list_elem_of_In, in_map. by apply list_elem_of_In.
        * apply all_values_None in Hvals as (p & Hin & Hp).
          apply list_elem_of_In, in_map_iff in Hin as (a & Ha & Hin).
          exists a. split; [by apply list_elem_of_In|].
          destruct (f a) as [v|e|] eqn:Hfa; subst p; [by destruct (Hp v)| |done].
          destruct (Hno e). rewrite <- Hfa.
          apply list_elem_of_In, in_map. exact Hin. }
  unfold Derivative.load. rewrite Hm, Hg, Hgeometry.
  fold imgs. fold f. fold f in Hpending.
  destruct (JS.catch (JS.all (List.map f imgs)) (fun _ => [])) as [ts|e|]
    eqn:Hcatch; cbn.
  - split; [done|]. split; [done|]. rewrite <- Hpending. by split.
  - by destruct (catch_all_not_rejected (List.map f imgs) e).
  - split; [done|]. split; [done|]. by rewrite <- Hpending.
Qed.

Lemma load_textures_never_reject_witness :
  Derivative.result
    (Derivative.load Sample.material Sample.loadingManager None
       (Sample.derivative
          [Sample.geoAsset; Sample.colorAsset; Sample.normalAsset]))
  <> Derivative.ReturnsPromise (JS.Rejected "404").
Proof.
  apply (load_textures_never_reject Sample.material Sample.loadingManager None
           (Sample.derivative
              [Sample.geoAsset; Sample.colorAsset; Sample.normalAsset])
           Sample.geoAsset Sample.geometry); reflexivity.
Defined.

(** X4.  Whatever path [load] takes and however the loads settle, it
    changes nothing of the derivative but the model and the bounding
    box: id, usage, quality and the asset list stay as they were.  A
    promise that resolves, resolves with the derivative as [load] left
    it. *)
Theorem load_keeps_identity_and_assets
    (newUberMaterial : THREE.UberMaterial)
    (loadingManager : Derivative.LoadingManager)
    (assetPath : option string) (d : Derivative.t) :
  let r := Derivative.load newUberMaterial loadingManager assetPath d in
  Derivative.id (Derivative.this r) = Derivative.id d
  /\ Derivative.usage (Derivative.this r) = Derivative.usage d
  /\ Derivative.quality (Derivative.this r) = Derivative.quality d
  /\ Derivative.assets (Derivative.this r) = Derivative.assets d
  /\ (forall d',
        Derivative.result r = Derivative.ReturnsPromise (JS.Resolved d') ->
        d' = Derivative.this r).
Proof.
  cbv zeta.
  load_cases newUberMaterial loadingManager assetPath d;
    repeat (split; [done|]); intros d' Hd'; congruence.
Qed.

(** X5.  [load] only requests assets of the derivative itself, each
    from the loader of its type, and always with the asset path it was
    given. *)
Theorem load_requests_own_assets
    (newUberMaterial : THREE.UberMaterial)
    (loadingManager : Derivative.LoadingManager)
    (assetPath : option string) (d : Derivative.t) :
  Forall (fun request =>
            match request with
            | Derivative.RequestModel a path =>
                a ∈ Derivative.assets d /\ Asset.type a = Some Asset.Model
                /\ path = assetPath
            | Derivative.RequestGeometry a path =>
                a ∈ Derivative.assets d /\ Asset.type a = Some Asset.Geometry
                /\ path = assetPath
            | Derivative.RequestTexture a path =>
                a ∈ Derivative.assets d /\ Asset.type a = Some Asset.Image
                /\ path = assetPath
            end)
         (Derivative.requests
            (Derivative.load newUberMaterial loadingManager assetPath d)).
Proof.
  assert (Himages :
    Forall (fun request =>
              match request with
              | Derivative.RequestModel a path =>
                  a ∈ Derivative.assets d /\ Asset.type a = Some Asset.Model
                  /\ path = assetPath
              | Derivative.RequestGeometry a path =>
                  a ∈ Derivative.assets d
                  /\ Asset.type a = Some Asset.Geometry /\ path = assetPath
              | Derivative.RequestTexture a path =>
                  a ∈ Derivative.assets d /\ Asset.type a = Some Asset.Image
                  /\ path = assetPath
              end)
           (List.map (fun a => Derivative.RequestTexture a assetPath)
                     (Derivative.findAssets Asset.Image d))).
  { apply Forall_forall. intros request Hin.
    apply list_elem_of_In, in_map_iff in Hin as (a & <- & Hin).
    apply list_elem_of_In, findAssets_In in Hin as [Hin Ha]. by repeat split. }
  load_cases newUberMaterial loadingManager assetPath d;
    try (apply findAsset_Some in Hmodel as [? ?]);
    try (apply findAsset_Some in Hgeo as [? ?]);
    repeat (constructor; [by repeat split|]); try done; try constructor.
Qed.

(** ** [load]: shading and bounding box *)

Section Shading.

Import THREE Derivative.

Lemma assignTexture_shading mapType texture m :
  color (assignTexture mapType texture m) = color m
  /\ roughness (assignTexture mapType texture m) = roughness m
  /\ metalness (assignTexture mapType texture m) = metalness m.
Proof. by destruct mapType as [[]|]. Qed.

(** Assigning textures never touches the shading parameters. *)
Lemma assignTextures_from_shading assets : forall i textures m,
  color (assignTextures_from i assets textures m) = color m
  /\ roughness (assignTextures_from i assets textures m) = roughness m
  /\ metalness (assignTextures_from i assets textures m) = metalness m.
Proof.
  induction assets as [|a assets IH]; intros i textures m; simpl; [done|].
  destruct (IH (S i) textures
              (assignTexture (Asset.mapType a) (textures !! i) m))
    as (-> & -> & ->).
  apply assignTexture_shading.
Qed.

End Shading.

(** X6.  When [load] resolves on the geometry path, the model is a
    childless mesh of the loaded geometry.  If its material ended up
    without a colour map, the fallback shading is in place: colour 0.5
    on every channel, roughness 0.8, metalness 0.  If a colour map was
    assigned, colour, roughness and metalness are those of the freshly
    constructed material. *)
Theorem load_fallback_shading
    (newUberMaterial : THREE.UberMaterial)
    (loadingManager : Derivative.LoadingManager)
    (assetPath : option string) (d d' : Derivative.t) :
  Derivative.findAsset Asset.Model d = None ->
  Derivative.result
    (Derivative.load newUberMaterial loadingManager assetPath d)
  = Derivative.ReturnsPromise (JS.Resolved d') ->
  exists geoAsset geometry material,
    Derivative.findAsset Asset.Geometry d = Some geoAsset
    /\ Derivative.loadGeometry loadingManager geoAsset assetPath
       = JS.Resolved geometry
    /\ Derivative.model d' = Some (THREE.Mesh geometry material [])
    /\ (THREE.map material = None ->
        THREE.color material = ((1 # 2)%Q, (1 # 2)%Q, (1 # 2)%Q)
        /\ THREE.roughness material = (4 # 5)%Q
        /\ THREE.metalness material = 0%Q)
    /\ (THREE.map material <> None ->
        THREE.color material = THREE.color newUberMaterial
        /\ THREE.roughness material = THREE.roughness newUberMaterial
        /\ THREE.metalness material = THREE.metalness newUberMaterial).
Proof.
  intros Hm. unfold Derivative.load. rewrite Hm.
  destruct (Derivative.findAsset Asset.Geometry d) as [geoAsset|];
    [|discriminate].
  destruct (Derivative.loadGeometry loadingManager geoAsset assetPath)
    as [geometry|e|] eqn:Hgeometry; [|discriminate|discriminate].
  destruct (JS.catch _ _) as [textures|e|]; [|discriminate|discriminate].
  cbn. intros Hd'. simplify_eq. cbn.
  set (m := Derivative.assignTextures
              (Derivative.findAssets Asset.Image d) textures newUberMaterial).
  exists geoAsset, geometry, (Derivative.fallbackShading m).
  split; [done|]. split; [done|]. split; [done|].
  destruct (assignTextures_from_shading
              (Derivative.findAssets Asset.Image d) 0 textures newUberMaterial)
    as (Hc & Hr & Hmt).
  fold (Derivative.assignTextures
          (Derivative.findAssets Asset.Image d) textures newUberMaterial)
    in Hc, Hr, Hmt.
  fold m in Hc, Hr, Hmt.
  unfold Derivative.fallbackShading. case_bool_decide as Hmap; cbn.
  - split; [done|]. intros Hne. by destruct Hne.
  - split; [intros Hnone; by destruct Hmap|]. done.
Qed.

Lemma load_fallback_shading_witness :
  exists material,
    Derivative.model
      (Derivative.this
         (Derivative.load Sample.material Sample.loadingManager None
            (Sample.derivative [Sample.geoAsset])))
    = Some (THREE.Mesh Sample.geometry material [])
    /\ THREE.roughness material = (4 # 5)%Q.
Proof.
  destruct (load_fallback_shading Sample.material Sample.loadingManager None
              (Sample.derivative [Sample.geoAsset])
              (Derivative.this
                 (Derivative.load Sample.material Sample.loadingManager None
                    (Sample.derivative [Sample.geoAsset]))))
    as (geoAsset & geometry & material & Hgeo & Hgeometry & Hmodel
        & Hfallback & _); try reflexivity.
  exists material. injection Hgeometry as <-. split; [exact Hmodel|].
  apply Hfallback.
  cbn in Hmodel. by injection Hmodel as <-.
Defined.

Section Containment.

Import THREE.

Lemma cleb_refl a : cleb a a = true.
Proof. destruct a; simpl; auto. apply Z.leb_refl. Qed.

Lemma cmin_le_l a b : cleb (cmin a b) a = true.
Proof.
  unfold cmin. destruct (cleb a b) eqn:Hab; [apply cleb_refl|].
  by apply cleb_false.
Qed.

Lemma cmin_le_r a b : cleb (cmin a b) b = true.
Proof. rewrite cmin_comm. apply cmin_le_l. Qed.

Lemma cmax_ge_l a b : cleb a (cmax a b) = true.
Proof.
  unfold cmax. destruct (cleb a b) eqn:Hab; [done|apply cleb_refl].
Qed.

Lemma cmax_ge_r a b : cleb b (cmax a b) = true.
Proof. rewrite cmax_comm. apply cmax_ge_l. Qed.

(** A point is in a box when each coordinate lies between the corners. *)
Lemma containsPoint_spec b p :
  containsPoint b p = true
  <-> (cleb (x (min b)) (x p) = true /\ cleb (x p) (x (max b)) = true)
      /\ (cleb (y (min b)) (y p) = true /\ cleb (y p) (y (max b)) = true)
      /\ (cleb (z (min b)) (z p) = true /\ cleb (z p) (z (max b)) = true).
Proof.
  unfold containsPoint, cltb.
  destruct (cleb (x (min b)) (x p)), (cleb (x p) (x (max b))),
           (cleb (y (min b)) (y p)), (cleb (y p) (y (max b))),
           (cleb (z (min b)) (z p)), (cleb (z p) (z (max b)));
    simpl; intuition congruence.
Qed.

Lemma containsPoint_union_l a b p :
  containsPoint a p = true -> containsPoint (union a b) p = true.
Proof.
  rewrite !containsPoint_spec. unfold union, vmin, vmax. simpl.
  intros ([? ?] & [? ?] & [? ?]).
  repeat split;
    eauto using cleb_trans, cmin_le_l, cmax_ge_l.
Qed.

Lemma containsPoint_union_r a b p :
  containsPoint b p = true -> containsPoint (union a b) p = true.
Proof. rewrite union_comm. apply containsPoint_union_l. Qed.

Lemma containsPoint_point p : containsPoint (box3 p p) p = true.
Proof. apply containsPoint_spec. simpl. by rewrite !cleb_refl. Qed.

Lemma containsPoint_expandByPoints ps : forall b p,
  containsPoint b p = true \/ p ∈ ps ->
  containsPoint (fold_left expandByPoint ps b) p = true.
Proof.
  induction ps as [|q ps IH]; intros b p [Hb|Hin]; simpl.
  - done.
  - by apply elem_of_nil in Hin.
  - apply IH. left. rewrite expandByPoint_union.
    by apply containsPoint_union_l.
  - apply IH. apply elem_of_cons in Hin as [->|Hin]; [left|by right].
    rewrite expandByPoint_union. apply containsPoint_union_r.
    apply containsPoint_point.
Qed.

Lemma containsPoint_expandByNodes ns : forall b p,
  containsPoint b p = true
  \/ p ∈ flat_map (fun n => match geometry_of n with
                            | Some g => vertices g
                            | None => []
                            end) ns ->
  containsPoint
    (fold_left (fun b n => expandByGeometry b (geometry_of n)) ns b) p = true.
Proof.
  induction ns as [|n ns IH]; intros b p [Hb|Hin]; simpl.
  - done.
  - by apply elem_of_nil in Hin.
  - apply IH. left. destruct (geometry_of n) as [g|]; simpl; [|done].
    apply containsPoint_expandByPoints. by left.
  - simpl in Hin. apply elem_of_app in Hin as [Hin|Hin].
    + apply IH. left. destruct (geometry_of n) as [g|]; simpl.
      * apply containsPoint_expandByPoints. by right.
      * by apply elem_of_nil in Hin.
    + apply IH. by right.
Qed.

(** A box expanded by an object contains what it contained before and
    every vertex of the object. *)
Lemma containsPoint_expandByObject b o p :
  containsPoint b p = true \/ p ∈ verticesOf o ->
  containsPoint (expandByObject b o) p = true.
Proof. apply containsPoint_expandByNodes. Qed.

End Containment.

(** X7.  Whenever [load] resolves, on either path, the derivative has a
    model and its bounding box contains every vertex of every geometry
    of that model. *)
Theorem load_bounding_box_contains_model
    (newUberMaterial : THREE.UberMaterial)
    (loadingManager : Derivative.LoadingManager)
    (assetPath : option string) (d d' : Derivative.t) :
  Derivative.result
    (Derivative.load newUberMaterial loadingManager assetPath d)
  = Derivative.ReturnsPromise (JS.Resolved d') ->
  exists model,
    Derivative.model d' = Some model
    /\ forall v, v ∈ THREE.verticesOf model ->
                 THREE.containsPoint (Derivative.boundingBox d') v = true.
Proof.
  load_cases newUberMaterial loadingManager assetPath d;
    intros Hd'; simplify_eq; cbn.
  - exists object. split; [done|]. intros v Hv.
    apply containsPoint_expandByObject. by right.
  - eexists. split; [reflexivity|]. intros v Hv.
    apply (containsPoint_expandByObject THREE.makeEmpty
             (THREE.Mesh geometry newUberMaterial [])).
    by right.
Qed.

Lemma load_bounding_box_contains_model_witness :
  THREE.containsPoint
    (Derivative.boundingBox
       (Derivative.this
          (Derivative.load Sample.material Sample.loadingManager None
             (Sample.derivative [Sample.modelAsset]))))
    (Sample.corner 1 2 3)
  = true.
Proof.
  destruct (load_bounding_box_contains_model Sample.material
              Sample.loadingManager None
              (Sample.derivative [Sample.modelAsset])
              (Derivative.this
                 (Derivative.load Sample.material Sample.loadingManager None
                    (Sample.derivative [Sample.modelAsset]))))
    as (model & Hmodel & Hin); [reflexivity|].
  apply Hin. cbn in Hmodel. injection Hmodel as <-.
  apply list_elem_of_In. simpl. auto.
Defined.

(** ** The scene's box and its members *)

Section SceneMembers.

Import THREE CVScene.

Lemma unionOfModels_Permutation models models' :
  models ≡ₚ models' -> unionOfModels models = unionOfModels models'.
Proof.
  induction 1 as [|m l l' _ IH|m m' l|l l' l'' _ IH _ IH']; simpl.
  - done.
  - by rewrite IH.
  - rewrite !union_assoc. f_equal. apply union_comm.
  - by rewrite IH.
Qed.

Lemma unionOfModels_contains models model p :
  model ∈ models -> p ∈ verticesOf (object3D model) ->
  containsPoint (unionOfModels models) p = true.
Proof.
  induction models as [|m models IH]; intros Hin Hp.
  - by apply elem_of_nil in Hin.
  - simpl. apply elem_of_cons in Hin as [->|Hin].
    + apply containsPoint_union_l. unfold boxOfModel.
      apply containsPoint_expandByObject. by right.
    + apply containsPoint_union_r. by apply IH.
Qed.

End SceneMembers.

(** X8.  The scene's model bounding box does not depend on the order in
    which the graph lists the models: recomputing it over two lists with
    the same members gives the same box. *)
Theorem scene_box_order_independent
    (models models' : list CVScene.CVModel2) (s s' : CVScene.t) :
  models ≡ₚ models' ->
  CVScene.modelBoundingBox (CVScene.updateModelBoundingBox models s)
  = CVScene.modelBoundingBox (CVScene.updateModelBoundingBox models' s').
Proof.
  intros Hperm. rewrite !updateModelBoundingBox_box.
  by apply unionOfModels_Permutation.
Qed.

Lemma scene_box_order_independent_witness :
  CVScene.modelBoundingBox
    (CVScene.updateModelBoundingBox
       [Sample.sceneModel;
        {| CVScene.model_id := 2;
           CVScene.object3D := THREE.Node (Some Sample.geometry) [] |}]
       Sample.scene)
  = CVScene.modelBoundingBox
      (CVScene.updateModelBoundingBox
         [{| CVScene.model_id := 2;
             CVScene.object3D := THREE.Node (Some Sample.geometry) [] |};
          Sample.sceneModel]
         Sample.scene).
Proof.
  apply scene_box_order_independent. apply perm_swap.
Defined.

(** X9.  After a model event, the scene's model bounding box contains
    every vertex of every model the graph holds: no member sticks out of
    the aggregate. *)
Theorem scene_box_contains_members
    (models : list CVScene.CVModel2) (event : CVScene.IComponentEvent)
    (s : CVScene.t) (model : CVScene.CVModel2) (v : THREE.Vector3) :
  model ∈ models ->
  v ∈ THREE.verticesOf (CVScene.object3D model) ->
  THREE.containsPoint
    (CVScene.modelBoundingBox (CVScene.onModelComponent models event s)) v
  = true.
Proof.
  intros Hin Hv. unfold CVScene.onModelComponent.
  rewrite updateModelBoundingBox_box.
  by apply (unionOfModels_contains models model).
Qed.

Lemma scene_box_contains_members_witness :
  THREE.containsPoint
    (CVScene.modelBoundingBox
       (CVScene.onModelComponent [Sample.sceneModel] Sample.added Sample.scene))
    (Sample.corner 1 2 3)
  = true.
Proof.
  apply (scene_box_contains_members [Sample.sceneModel] Sample.added
           Sample.scene Sample.sceneModel);
    apply list_elem_of_In; simpl; auto.
Defined.

(** ** Textures that load, and their release *)

Section LoadedTextures.

Import THREE Derivative.

Lemma assignTextures_last assets : forall textures m,
  length assets = length textures ->
  let pick mapType (slot : option Texture) :=
    match lastTexture mapType (combine assets textures) with
    | Some t => Some t
    | None => slot
    end in
  slots (assignTextures assets textures m)
  = [ pick Asset.Color (map m);
      pick Asset.Occlusion (aoMap m);
      pick Asset.Emissive (emissiveMap m);
      pick Asset.MetallicRoughness (metalnessMap m);
      pick Asset.MetallicRoughness (roughnessMap m);
      pick Asset.Normal (normalMap m) ].
Proof.
  induction assets as [|a assets IH]; intros [|t textures] m Hlen;
    try discriminate; [done|].
  cbv zeta in *. rewrite assignTextures_cons, IH by (simpl in Hlen; lia).
  simpl.
  destruct (Asset.mapType a) as [[]|]; simpl;
    repeat (case_bool_decide; try congruence);
    repeat match goal with
           | |- context [lastTexture ?mt ?l] => destruct (lastTexture mt l)
           end; reflexivity.
Qed.

Lemma length_releaseMap slot :
  length (releaseMap slot) = if bool_decide (slot <> None) then 1 else 0.
Proof. by destruct slot. Qed.

Lemma length_disposeMesh g m : length (disposeMesh g m) = S (occupied m).
Proof.
  unfold disposeMesh, occupied, slots. simpl.
  rewrite !length_app, !length_releaseMap.
  repeat case_bool_decide; reflexivity.
Qed.

Lemma length_flat_map {A B} (f : A -> list B) (l : list A) :
  length (flat_map f l) = sum_list (List.map (fun a => length (f a)) l).
Proof.
  induction l as [|a l IH]; simpl; [done|]. by rewrite length_app, IH.
Qed.

End LoadedTextures.

(** X10.  On the geometry path, when the geometry and every texture
    load resolve, [load] resolves and each slot of the material holds
    the texture of the last image asset whose map type names that slot;
    a slot no image asset names holds what the fresh material held.  (A
    MetallicRoughness asset names two slots.) *)
Theorem load_assigns_last_texture_per_slot
    (newUberMaterial : THREE.UberMaterial)
    (loadingManager : Derivative.LoadingManager)
    (assetPath : option string) (d : Derivative.t)
    (geoAsset : Asset.t) (geometry : THREE.Geometry)
    (textures : list THREE.Texture) :
  Derivative.findAsset Asset.Model d = None ->
  Derivative.findAsset Asset.Geometry d = Some geoAsset ->
  Derivative.loadGeometry loadingManager geoAsset assetPath
  = JS.Resolved geometry ->
  Forall2 (fun a v =>
             Derivative.loadTexture loadingManager a assetPath = JS.Resolved v)
          (Derivative.findAssets Asset.Image d) textures ->
  let r := Derivative.load newUberMaterial loadingManager assetPath d in
  let loaded := combine (Derivative.findAssets Asset.Image d) textures in
  let pick mapType (slot : THREE.UberMaterial -> option THREE.Texture) :=
    match Derivative.lastTexture mapType loaded with
    | Some t => Some t
    | None => slot newUberMaterial
    end in
  exists material,
    Derivative.result r
    = Derivative.ReturnsPromise (JS.Resolved (Derivative.this r))
    /\ Derivative.model (Derivative.this r)
       = Some (THREE.Mesh geometry material [])
    /\ Derivative.slots material
       = [ pick Asset.Color THREE.map;
           pick Asset.Occlusion THREE.aoMap;
           pick Asset.Emissive THREE.emissiveMap;
           pick Asset.MetallicRoughness THREE.metalnessMap;
           pick Asset.MetallicRoughness THREE.roughnessMap;
           pick Asset.Normal THREE.normalMap ].
Proof.
  intros Hm Hg Hgeometry Hall. cbv zeta.
  unfold Derivative.load. rewrite Hm, Hg, Hgeometry.
  rewrite (all_resolved _ _ textures Hall). cbn.
  eexists. split; [reflexivity|]. split; [reflexivity|].
  rewrite fallbackShading_slots.
  apply (assignTextures_last (Derivative.findAssets Asset.Image d) textures
           newUberMaterial).
  by apply Forall2_length in Hall.
Qed.

Lemma load_assigns_last_texture_per_slot_witness :
  exists material,
    Derivative.model
      (Derivative.this
         (Derivative.load Sample.material Sample.loadingManager None
            (Sample.derivative
               [Sample.geoAsset; Sample.metalAsset; Sample.colorAsset])))
    = Some (THREE.Mesh Sample.geometry material [])
    /\ Derivative.slots material
       = [Some (THREE.TextureRef 1); None; None;
          Some (THREE.TextureRef 2); Some (THREE.TextureRef 2); None].
Proof.
  destruct (load_assigns_last_texture_per_slot Sample.material
              Sample.loadingManager None
              (Sample.derivative
                 [Sample.geoAsset; Sample.metalAsset; Sample.colorAsset])
              Sample.geoAsset Sample.geometry
              [THREE.TextureRef 2; THREE.TextureRef 1])
    as (material & _ & Hmodel & Hslots); try reflexivity.
  - repeat constructor.
  - exists material. split; [exact Hmodel|exact Hslots].
Defined.

(** X11.  [dispose] makes exactly one release call for the geometry of
    each mesh of the model and one for each slot of its material that
    holds a texture: the number of calls is the number of meshes plus
    the number of occupied slots, and a derivative without a model gets
    none. *)
Theorem dispose_release_count (d : Derivative.t) :
  length (Derivative.released (Derivative.dispose d))
  = match Derivative.model d with
    | Some model =>
        sum_list
          (List.map
             (fun node =>
                match node with
                | THREE.Mesh _ material _ => S (Derivative.occupied material)
                | THREE.Node _ _ => 0
                end)
             (THREE.traverse model))
    | None => 0
    end.
Proof.
  unfold Derivative.dispose. destruct (Derivative.model d) as [model|]; simpl;
    [|done].
  rewrite length_flat_map. f_equal. apply map_ext.
  intros [g m cs|g cs]; [exact (length_disposeMesh g m)|reflexivity].
Qed.

(** X12.  A texture shared by two slots is released twice by one
    [dispose]: after a load on the geometry path in which every texture
    loaded and one image asset has map type MetallicRoughness, the
    release calls of [dispose] name that asset's texture at least
    twice. *)
Theorem dispose_releases_shared_texture_twice
    (newUberMaterial : THREE.UberMaterial)
    (loadingManager : Derivative.LoadingManager)
    (assetPath : option string) (d : Derivative.t)
    (geoAsset asset : Asset.t) (geometry : THREE.Geometry)
    (textures : list THREE.Texture) (t : THREE.Texture) :
  Derivative.findAsset Asset.Model d = None ->
  Derivative.findAsset Asset.Geometry d = Some geoAsset ->
  Derivative.loadGeometry loadingManager geoAsset assetPath
  = JS.Resolved geometry ->
  Forall2 (fun a v =>
             Derivative.loadTexture loadingManager a assetPath = JS.Resolved v)
          (Derivative.findAssets Asset.Image d) textures ->
  List.filter Derivative.isMetallicRoughness
              (Derivative.findAssets Asset.Image d) = [asset] ->
  Derivative.loadTexture loadingManager asset assetPath = JS.Resolved t ->
  2 <= count_occ THREE.release_eq_dec
         (Derivative.released
            (Derivative.dispose
               (Derivative.this
                  (Derivative.load newUberMaterial loadingManager assetPath
                     d))))
         (THREE.ReleaseTexture t).
Proof.
  intros Hm Hg Hgeometry Hall Hone Ht.
  unfold Derivative.load. rewrite Hm, Hg, Hgeometry.
  rewrite (all_resolved _ _ textures Hall). cbn.
  destruct (assignTextures_metallicRoughness
              (fun a => Derivative.loadTexture loadingManager a assetPath)
              _ textures asset t newUberMaterial Hall Hone Ht) as [Hmetal Hrough].
  pose proof (fallbackShading_slots
                (Derivative.assignTextures
                   (Derivative.findAssets Asset.Image d) textures
                   newUberMaterial)) as Hslots.
  unfold Derivative.slots in Hslots.
  injection Hslots as _ _ _ Hmetal' Hrough' _.
  rewrite app_nil_r. unfold Derivative.disposeMesh.
  rewrite Hmetal', Hrough', Hmetal, Hrough.
  assert (Hcount :
    count_occ THREE.release_eq_dec (Derivative.releaseMap (Some t))
              (THREE.ReleaseTexture t) = 1).
  { unfold Derivative.releaseMap. by rewrite count_occ_cons_eq. }
  rewrite !count_occ_app, Hcount. lia.
Qed.

Lemma dispose_releases_shared_texture_twice_witness :
  2 <= count_occ THREE.release_eq_dec
         (Derivative.released
            (Derivative.dispose
               (Derivative.this
                  (Derivative.load Sample.material Sample.loadingManager None
                     (Sample.derivative
                        [Sample.geoAsset; Sample.metalAsset])))))
         (THREE.ReleaseTexture (THREE.TextureRef 2)).
Proof.
  apply (dispose_releases_shared_texture_twice Sample.material
           Sample.loadingManager None
           (Sample.derivative [Sample.geoAsset; Sample.metalAsset])
           Sample.geoAsset Sample.metalAsset Sample.geometry
           [THREE.TextureRef 2]); try reflexivity.
  repeat constructor.
Defined.

(** ** [addAsset] and the lookups *)

Section AddAsset.

Context `{Asset.Impl}.

Import Derivative.

Lemma find_app_first {A} (f : A -> bool) (l l' : list A) :
  List.find f (l ++ l')
  = match List.find f l with Some a => Some a | None => List.find f l' end.
Proof.
  induction l as [|a l IH]; simpl; [done|]. by destruct (f a).
Qed.

(** What [addAsset] appends when the URI is not empty. *)
Lemma addAsset_appended uri type mapType d :
  uri <> EmptyString ->
  exists asset,
    snd (addAsset uri type mapType d) = set_assets d (assets d ++ [asset])
    /\ Asset.uri asset = uri
    /\ Asset.type asset = Some type
    /\ Asset.mapType asset
       = match mapType with
         | Some mt =>
             if bool_decide (type = Asset.Texture) then Some mt
             else Asset.mapType (Asset.new None)
         | None => Asset.mapType (Asset.new None)
         end.
Proof.
  intros Hne. apply String.eqb_neq in Hne. unfold addAsset. rewrite Hne.
  eexists. split; [reflexivity|].
  destruct mapType as [mt|]; [case_bool_decide|]; done.
Qed.

End AddAsset.

(** X13.  After [addAsset] with a non-empty URI, looking up the first
    asset of any other type gives what it gave before; looking up the
    added type gives the asset found before if there was one, and the
    new asset otherwise. *)
Theorem addAsset_then_findAsset `{Asset.Impl}
    (uri : string) (type type' : Asset.EAssetType)
    (mapType : option Asset.EMapType) (d : Derivative.t) :
  uri <> EmptyString ->
  let d' := snd (Derivative.addAsset uri type mapType d) in
  (type' <> type ->
   Derivative.findAsset type' d' = Derivative.findAsset type' d)
  /\ (forall a, Derivative.findAsset type d = Some a ->
                Derivative.findAsset type d' = Some a)
  /\ (Derivative.findAsset type d = None ->
      exists a, Derivative.findAsset type d' = Some a
                /\ Asset.uri a = uri
                /\ Derivative.assets d' = Derivative.assets d ++ [a]).
Proof.
  intros Hne. cbv zeta.
  destruct (addAsset_appended uri type mapType d Hne)
    as (asset & -> & Huri & Htype & _).
  unfold Derivative.findAsset. cbn. rewrite !find_app_first. cbn.
  split; [|split].
  - intros Hother. rewrite Htype.
    rewrite (bool_decide_eq_false_2 (Some type = Some type')) by congruence.
    by destruct (List.find _ _).
  - by intros a ->.
  - intros ->. exists asset. rewrite Htype.
    by rewrite bool_decide_eq_true_2.
Qed.

Lemma addAsset_then_findAsset_witness :
  exists a,
    Derivative.findAsset Asset.Model
      (snd (@Derivative.addAsset AssetReference.impl "ewer.glb" Asset.Model
              None (Sample.derivative [Sample.geoAsset])))
    = Some a
    /\ Asset.uri a = "ewer.glb".
Proof.
  destruct (@addAsset_then_findAsset AssetReference.impl "ewer.glb"
              Asset.Model Asset.Model None
              (Sample.derivative [Sample.geoAsset]))
    as (_ & _ & Hnew); [discriminate|].
  destruct Hnew as (a & Hfind & Huri & _); [reflexivity|].
  by exists a.
Defined.

(** X14.  [addAsset] keeps a map type only on an asset of type Texture.
    With any other type, Image included, the map type given is dropped
    and the new asset has the map type of an empty [Asset]; either way
    the new asset is the last of the assets of its type. *)
Theorem addAsset_keeps_mapType_for_Texture_only `{Asset.Impl}
    (uri : string) (type : Asset.EAssetType) (mapType : Asset.EMapType)
    (d : Derivative.t) :
  uri <> EmptyString ->
  let d' := snd (Derivative.addAsset uri type (Some mapType) d) in
  exists asset,
    Derivative.assets d' = Derivative.assets d ++ [asset]
    /\ Derivative.findAssets type d' = Derivative.findAssets type d ++ [asset]
    /\ (type = Asset.Texture -> Asset.mapType asset = Some mapType)
    /\ (type <> Asset.Texture ->
        Asset.mapType asset = Asset.mapType (Asset.new None)).
Proof.
  intros Hne. cbv zeta.
  destruct (addAsset_appended uri type (Some mapType) d Hne)
    as (asset & -> & Huri & Htype & Hmap).
  exists asset. split; [done|]. split.
  - unfold Derivative.findAssets. cbn. rewrite List.filter_app. cbn.
    by rewrite Htype, bool_decide_eq_true_2.
  - rewrite Hmap. by split; intros ?; case_bool_decide.
Qed.

Lemma addAsset_keeps_mapType_for_Texture_only_witness :
  exists asset,
    Derivative.findAssets Asset.Image
      (snd (@Derivative.addAsset AssetReference.impl "ewer-normals.jpg"
              Asset.Image (Some Asset.Normal)
              (Sample.derivative [Sample.geoAsset])))
    = [asset]
    /\ Asset.mapType asset = None.
Proof.
  destruct (@addAsset_keeps_mapType_for_Texture_only AssetReference.impl
              "ewer-normals.jpg" Asset.Image Asset.Normal
              (Sample.derivative [Sample.geoAsset]))
    as (asset & _ & Himages & _ & Hdropped); [discriminate|].
  exists asset. split; [exact Himages|]. by apply Hdropped.
Defined.

(** X15.  [toData] always writes usage and quality as strings, each the
    name under which the enumeration holds the derivative's usage or
    quality, and as many assets as the derivative has; two derivatives
    that serialize to the same usage and quality have the same usage
    and quality. *)
Theorem toData_names_usage_and_quality `{Asset.Impl} (d d2 : Derivative.t) :
  (exists u q,
     Item.usage (Derivative.toData d) = JS.Str u
     /\ Item.quality (Derivative.toData d) = JS.Str q
     /\ JS.get Derivative.EDerivativeUsage_enum u
        = JS.Num (Derivative.usage_index (Derivative.usage d))
     /\ JS.get Derivative.EDerivativeQuality_enum q
        = JS.Num (Derivative.quality_index (Derivative.quality d)))
  /\ length (Item.assets (Derivative.toData d))
     = length (Derivative.assets d)
  /\ (Item.usage (Derivative.toData d) = Item.usage (Derivative.toData d2) ->
      Derivative.usage d = Derivative.usage d2)
  /\ (Item.quality (Derivative.toData d) = Item.quality (Derivative.toData d2) ->
      Derivative.quality d = Derivative.quality d2).
Proof.
  split.
  { destruct (usage_name_index (Derivative.usage d)) as (u & Hu & Hu').
    destruct (quality_name_index (Derivative.quality d)) as (q & Hq & Hq').
    by exists u, q. }
  split; [cbn; by rewrite length_map|].
  cbn. split.
  - destruct (Derivative.usage d), (Derivative.usage d2);
      vm_compute; congruence.
  - destruct (Derivative.quality d), (Derivative.quality d2);
      vm_compute; congruence.
Qed.

Lemma toData_names_usage_and_quality_witness :
  Derivative.usage (Sample.derivative []) = Derivative.Web.
Proof.
  destruct (@toData_names_usage_and_quality AssetReference.impl
              (Sample.derivative [])
              (Sample.derivative [Sample.geoAsset]))
    as (_ & _ & Husage & _).
  apply Husage. reflexivity.
Defined.

(** ** Member names on read, and the reader's round trip *)

Section Members.

Lemma index_of_lookup key (E : JS.enum) i :
  JS.index_of key E = Some i -> E !! i = Some key.
Proof.
  revert i. induction E as [|m E IH]; intros i; simpl; [discriminate|].
  destruct (String.eqb_spec m key) as [->|Hne].
  - by intros [= <-].
  - destruct (JS.index_of key E) as [j|]; simpl; [|discriminate].
    intros [= <-]. by apply IH.
Qed.

Lemma index_of_member key (E : JS.enum) :
  key ∈ E -> exists i, JS.index_of key E = Some i.
Proof.
  intros Hin. destruct (JS.index_of key E) as [i|] eqn:Hi; [by exists i|].
  exfalso. revert Hin Hi. induction E as [|m E IH]; intros Hin; simpl.
  - by apply elem_of_nil in Hin.
  - destruct (String.eqb_spec m key) as [->|Hne]; [discriminate|].
    apply elem_of_cons in Hin as [->|Hin]; [done|].
    destruct (JS.index_of key E); [discriminate|]. intros _. by apply IH.
Qed.

(** A member name is looked up as the index it is declared at. *)
Lemma get_member (E : JS.enum) key :
  key ∈ E -> exists i, E !! i = Some key /\ JS.get E key = JS.Num i.
Proof.
  intros Hin. destruct (index_of_member key E Hin) as (i & Hi).
  exists i. split; [by apply index_of_lookup|].
  unfold JS.get. by rewrite Hi.
Qed.

Lemma name_of_key_lookup (E : JS.enum) : forall j k,
  JS.name_of_key (pretty (j + k)) j E = E !! k.
Proof.
  induction E as [|m E IH]; intros j k; simpl; [done|].
  destruct k as [|k].
  - by rewrite Nat.add_0_r, String.eqb_refl.
  - destruct (String.eqb_spec (pretty j) (pretty (j + S k))) as [Heq|_].
    + apply (inj pretty) in Heq. lia.
    + replace (j + S k) with (S j + k) by lia. apply IH.
Qed.

(** In a well declared enumeration, an index is looked up as the name
    declared at it. *)
Lemma get_num_member (E : JS.enum) i name :
  JS.well_declared E -> E !! i = Some name -> JS.get_num E i = JS.Str name.
Proof.
  intros (_ & Hnum & _) Hi. unfold JS.get_num, JS.get.
  rewrite index_of_None.
  - pose proof (name_of_key_lookup E 0 i) as Hname. simpl in Hname.
    by rewrite Hname, Hi.
  - apply Hnum. by apply lookup_lt_Some in Hi.
Qed.

Lemma or_index_first (m : string) (E : JS.enum) i :
  JS.or (JS.Num i) (JS.get (m :: E) m) = JS.Num i.
Proof. destruct i; [apply get_first|done]. Qed.

End Members.

(** X16.  [fromDocument] reads every member name of the units
    enumeration as the index it is declared at, the first member
    included, and marks the units as changed without touching the
    bounding box; the next [update] then recomputes the box over the
    models of the graph and emits "bounding-box". *)
Theorem scene_reads_unit_name
    (EUnitType : JS.enum) (key : string) (s : CVScene.t)
    (models : list CVScene.CVModel2) :
  key ∈ EUnitType ->
  let s' := CVScene.fromDocument EUnitType key s in
  exists i,
    EUnitType !! i = Some key
    /\ CVScene.value (CVScene.units s') = JS.Num i
    /\ CVScene.changed (CVScene.units s') = true
    /\ CVScene.modelBoundingBox s' = CVScene.modelBoundingBox s
    /\ CVScene.emitted s' = CVScene.emitted s
    /\ CVScene.modelBoundingBox (fst (CVScene.update models s'))
       = CVScene.unionOfModels models
    /\ CVScene.emitted (fst (CVScene.update models s'))
       = CVScene.emitted s ++ ["bounding-box"].
Proof.
  intros Hin. cbv zeta.
  destruct (get_member EUnitType key Hin) as (i & Hi & Hget).
  exists i. split; [done|]. split.
  { unfold CVScene.fromDocument. cbn. rewrite Hget. by destruct i. }
  split; [done|]. split; [done|]. split; [done|].
  unfold CVScene.update. cbn [CVScene.fromDocument CVScene.units
    CVScene.setValue CVScene.changed fst].
  split; [apply updateModelBoundingBox_box|reflexivity].
Qed.

Lemma scene_reads_unit_name_witness :
  CVScene.value
    (CVScene.units (CVScene.fromDocument Sample.EUnitType "mm" Sample.scene))
  = JS.Num 0.
Proof.
  destruct (scene_reads_unit_name Sample.EUnitType "mm" Sample.scene [])
    as (i & Hi & Hvalue & _).
  - apply list_elem_of_In. simpl. auto.
  - refine (eq_trans Hvalue _). destruct i as [|i]; [reflexivity|].
    do 5 (destruct i as [|i]; [discriminate Hi|]). discriminate Hi.
Defined.

Section ReaderRead.

Lemma fromData_member names data c key :
  CVReader.data_position data = JS.Str key ->
  key ∈ "Overlay" :: names ->
  exists i,
    ("Overlay" :: names) !! i = Some key
    /\ CVReader.fromData ("Overlay" :: names) (Some data) c
       = {| CVReader.visible := JS.truthy (CVReader.data_visible data);
            CVReader.position := JS.Num i;
            CVReader.url := CVReader.data_url data |}.
Proof.
  intros Hdata Hin.
  destruct (get_member ("Overlay" :: names) key Hin) as (i & Hi & Hget).
  exists i. split; [done|].
  unfold CVReader.fromData. rewrite Hdata.
  cbn [CVReader.data_position CVReader.data_visible CVReader.data_url
       JS.get_value].
  by rewrite Hget, or_index_first.
Qed.

Lemma fromData_missing names c :
  ~ JS.has_property ("Overlay" :: names) "undefined" ->
  CVReader.fromData ("Overlay" :: names) None c
  = {| CVReader.visible := false; CVReader.position := JS.Num 0;
       CVReader.url := JS.Undefined |}.
Proof.
  intros Hnot. unfold CVReader.fromData.
  cbn [CVReader.data_position CVReader.data_visible CVReader.data_url
       JS.get_value JS.truthy].
  by rewrite (get_no_property _ _ Hnot), get_first.
Qed.

End ReaderRead.

(** X17.  With [Overlay] declared first, [fromData] reads every member
    name of the position enumeration as the index it is declared at,
    takes [visible] as a boolean and the URL as it is, and forgets what
    the inputs held before; without data (or without a position in it)
    the position is [Overlay], the reader is not visible and the URL is
    undefined. *)
Theorem reader_reads_position
    (names : list string) (data : CVReader.IReader) (c : CVReader.t)
    (key : string) :
  let EReaderPosition : JS.enum := "Overlay" :: names in
  (CVReader.data_position data = JS.Str key ->
   key ∈ EReaderPosition ->
   exists i,
     EReaderPosition !! i = Some key
     /\ CVReader.fromData EReaderPosition (Some data) c
        = {| CVReader.visible := JS.truthy (CVReader.data_visible data);
             CVReader.position := JS.Num i;
             CVReader.url := CVReader.data_url data |})
  /\ (~ JS.has_property EReaderPosition "undefined" ->
      CVReader.fromData EReaderPosition None c
      = {| CVReader.visible := false; CVReader.position := JS.Num 0;
           CVReader.url := JS.Undefined |}).
Proof.
  cbv zeta. split.
  - apply fromData_member.
  - apply fromData_missing.
Qed.

Lemma reader_reads_position_witness :
  CVReader.fromData Sample.EReaderPosition
    (Some {| CVReader.data_visible := JS.Num 1;
             CVReader.data_position := JS.Str "Right";
             CVReader.data_url := JS.Str "article.html" |})
    Sample.reader
  = {| CVReader.visible := true; CVReader.position := JS.Num 2;
       CVReader.url := JS.Str "article.html" |}.
Proof.
  destruct (reader_reads_position ["Left"; "Right"]
              {| CVReader.data_visible := JS.Num 1;
                 CVReader.data_position := JS.Str "Right";
                 CVReader.data_url := JS.Str "article.html" |}
              Sample.reader "Right") as [Hmember _].
  destruct Hmember as (i & Hi & Hread); [reflexivity| |].
  - apply list_elem_of_In. simpl. auto.
  - refine (eq_trans Hread _). do 2 (destruct i as [|i]; [discriminate Hi|]).
    destruct i as [|i]; [reflexivity|discriminate Hi].
Defined.

(** X18.  With a well declared position enumeration whose first member
    is [Overlay], [toData] after [fromData] gives back the position name
    that was read, the URL that was read and [visible] as a boolean;
    after [fromData] without data it gives the position "Overlay". *)
Theorem reader_toData_after_fromData
    (names : list string) (data : CVReader.IReader) (c : CVReader.t)
    (key : string) :
  let EReaderPosition : JS.enum := "Overlay" :: names in
  JS.well_declared EReaderPosition ->
  (CVReader.data_position data = JS.Str key ->
   key ∈ EReaderPosition ->
   CVReader.toData EReaderPosition
     (CVReader.fromData EReaderPosition (Some data) c)
   = {| CVReader.out_visible := JS.truthy (CVReader.data_visible data);
        CVReader.out_position := JS.Str key;
        CVReader.out_url := CVReader.data_url data |})
  /\ (~ JS.has_property EReaderPosition "undefined" ->
      CVReader.toData EReaderPosition
        (CVReader.fromData EReaderPosition None c)
      = {| CVReader.out_visible := false;
           CVReader.out_position := JS.Str "Overlay";
           CVReader.out_url := JS.Undefined |}).
Proof.
  cbv zeta. intros Hwell. split.
  - intros Hdata Hin.
    destruct (fromData_member names data c key Hdata Hin) as (i & Hi & ->).
    unfold CVReader.toData.
    cbn [CVReader.visible CVReader.position CVReader.url JS.get_value].
    rewrite (get_num_member _ i key Hwell Hi).
    destruct Hwell as (_ & _ & Hempty).
    unfold JS.or, JS.truthy.
    destruct (String.eqb_spec key EmptyString) as [->|_]; [done|done].
  - intros Hnot. rewrite (fromData_missing names c Hnot).
    unfold CVReader.toData.
    cbn [CVReader.visible CVReader.position CVReader.url JS.get_value].
    by rewrite (get_num_member _ 0 "Overlay" Hwell).
Qed.

Lemma reader_toData_after_fromData_witness :
  CVReader.out_position
    (CVReader.toData Sample.EReaderPosition
       (CVReader.fromData Sample.EReaderPosition
          (Some {| CVReader.data_visible := JS.Num 1;
                   CVReader.data_position := JS.Str "Left";
                   CVReader.data_url := JS.Undefined |})
          Sample.reader))
  = JS.Str "Left".
Proof.
  destruct (reader_toData_after_fromData ["Left"; "Right"]
              {| CVReader.data_visible := JS.Num 1;
                 CVReader.data_position := JS.Str "Left";
                 CVReader.data_url := JS.Undefined |}
              Sample.reader "Left") as [Hround _].
  - split; [|split].
    + repeat constructor; intros Hin; apply list_elem_of_In in Hin;
        simpl in Hin; intuition discriminate.
    + intros i Hi Hin. apply list_elem_of_In in Hin.
      do 3 (destruct i as [|i];
            [simpl in Hin; intuition discriminate|]).
      simpl in Hi. lia.
    + intros Hin. apply list_elem_of_In in Hin. simpl in Hin.
      intuition discriminate.
  - refine (eq_trans (f_equal CVReader.out_position (Hround eq_refl _)) _);
      [apply list_elem_of_In; simpl; auto|reflexivity].
Defined.


(** ** Documents and the root URL *)

Section Documents.

Import CVAssetLoaderRequests.

Lemma beforeQuery_app href query :
  beforeQuery (String.append (beforeQuery href) (String.append "?" query))
  = beforeQuery href.
Proof.
  induction href as [|c href IH]; simpl.
  - reflexivity.
  - destruct (Ascii.eqb c _) eqn:Hc; simpl.
    + reflexivity.
    + by rewrite Hc, IH.
Qed.

End Documents.

(** X19.  [loadDocumentData] resolves only with a document the
    validator accepts, namely the JSON loaded from the URL resolved
    against the root URL; it rejects with the loader's error or, for a
    document the validator refuses, with the validation error; it stays
    pending only while the JSON load does. *)
Theorem loadDocumentData_only_valid {JSON : Type}
    (resolvePathname : string -> string -> string)
    (l : CVAssetLoaderRequests.loaders JSON) (rootUrl url : string) :
  let loaded :=
    CVAssetLoaderRequests.jsonLoader l (resolvePathname url rootUrl) in
  let p :=
    CVAssetLoaderRequests.loadDocumentData resolvePathname l rootUrl url in
  (forall doc,
     p = JS.Resolved doc
     <-> loaded = JS.Resolved doc
         /\ CVAssetLoaderRequests.validator l doc = true)
  /\ (forall e,
        p = JS.Rejected e
        <-> loaded = JS.Rejected e
            \/ exists json,
                 loaded = JS.Resolved json
                 /\ CVAssetLoaderRequests.validator l json = false
                 /\ e = "invalid document data, validation failed")
  /\ (p = JS.Pending <-> loaded = JS.Pending).
Proof.
  cbv zeta.
  unfold CVAssetLoaderRequests.loadDocumentData,
    CVAssetLoaderRequests.loadJSON, CVAssetLoaderRequests.getAssetURL,
    CVAssetLoaderRequests.validateDocument.
  destruct (CVAssetLoaderRequests.jsonLoader l (resolvePathname url rootUrl))
    as [json|e'|]; cbn.
  - destruct (CVAssetLoaderRequests.validator l json) eqn:Hvalid; cbn.
    + split; [|split].
      * intros doc. split; [by intros [= <-]|by intros [[= <-] _]].
      * intros e. split; [discriminate|].
        intros [?|(json' & [= <-] & ? & _)]; [discriminate|congruence].
      * done.
    + split; [|split].
      * intros doc. split; [discriminate|]. intros [[= <-] ?]. congruence.
      * intros e. split.
        -- intros [= <-]. right. by exists json.
        -- intros [?|(json' & _ & _ & ->)]; [discriminate|done].
      * done.
  - split; [|split].
    + intros doc. split; [discriminate|by intros [? _]].
    + intros e. split; [intros [= <-]; by left|].
      intros [[= <-]|(json & ? & _)]; [done|discriminate].
    + done.
  - split; [|split].
    + intros doc. split; [discriminate|by intros [? _]].
    + intros e. split; [discriminate|].
      intros [?|(json & ? & _)]; discriminate.
    + done.
Qed.

(** X20.  The query of the page location never reaches the root URL:
    [setRootURL] gives the same root URL when a query is appended to the
    location or the query it has is replaced by another one. *)
Theorem setRootURL_ignores_query
    (resolvePathname : string -> string -> string)
    (href query url : string) :
  CVAssetLoaderRequests.setRootURL resolvePathname
    (String.append (CVAssetLoaderRequests.beforeQuery href)
                   (String.append "?" query)) url
  = CVAssetLoaderRequests.setRootURL resolvePathname href url.
Proof.
  unfold CVAssetLoaderRequests.setRootURL. by rewrite beforeQuery_app.
Qed.

(** ** The loading signal without errors, and after one *)

Section LoadingMore.

Import CVAssetLoader.

Lemma loading_exact_run es : forall n m,
  well_formed n es = true ->
  forallb (fun e => negb (isItemError e)) es = true ->
  loading_inv n m ->
  loading (assetLoader m) = isLoading m ->
  exists n',
    loading_inv n' (run es m)
    /\ loading (assetLoader (run es m)) = isLoading (run es m).
Proof.
  induction es as [|e es IH]; intros n m Hwf Hno Hinv Heq; simpl.
  - by exists n.
  - simpl in Hno. apply andb_true_iff in Hno as [He Hno].
    destruct e as [url|url|url]; simpl in Hwf, He; [| |discriminate].
    + apply (IH (S n)); [done|done|by apply loading_inv_itemStart|].
      cbn. destruct (isLoading m) eqn:Hl; [by rewrite Heq|done].
    + destruct n as [|n]; [discriminate|].
      apply (IH n); [done|done|by apply loading_inv_itemEnd|].
      cbn [step]. unfold itemEnd, onLoadingProgress. cbv zeta.
      destruct (Nat.eqb (S (itemsLoaded m)) (itemsTotal m));
        [reflexivity|exact Heq].
Qed.

Lemma loading_off_run es : forall n m,
  never_idle n es = true -> 0 < n ->
  loading_inv n m ->
  loading (assetLoader m) = false ->
  loading (assetLoader (run es m)) = false.
Proof.
  induction es as [|e es IH]; intros n m Hbusy Hn Hinv Hoff; simpl; [done|].
  destruct e as [url|url|url]; simpl in Hbusy.
  - apply (IH (S n)); [done|lia|by apply loading_inv_itemStart|].
    destruct Hinv as (_ & Hflag & _). cbn.
    by rewrite Hflag, bool_decide_eq_true_2.
  - destruct n as [|[|n]]; [discriminate|discriminate|].
    apply (IH (S n)); [done|lia|by apply loading_inv_itemEnd|].
    cbn [step]. unfold itemEnd, onLoadingProgress. cbv zeta.
    destruct (Nat.eqb (S (itemsLoaded m)) (itemsTotal m));
      [reflexivity|exact Hoff].
  - apply (IH n); [done|done|by apply loading_inv_itemError|done].
Qed.

End LoadingMore.

(** X21.  As long as no load fails, the loading output is true exactly
    while loads are outstanding: along every sequence of loader events
    without an error, from a fresh manager, it equals "the queue is not
    empty". *)
Theorem loading_is_busy_without_errors (es : list CVAssetLoader.item_event) :
  CVAssetLoader.well_formed 0 es = true ->
  forallb (fun e => negb (CVAssetLoader.isItemError e)) es = true ->
  let m := CVAssetLoader.run es CVAssetLoader.initial in
  CVAssetLoader.loading (CVAssetLoader.assetLoader m)
  = bool_decide (0 < CVAssetLoader.outstanding m).
Proof.
  intros Hwf Hno m.
  destruct (loading_exact_run es 0 CVAssetLoader.initial Hwf Hno
              loading_inv_initial eq_refl) as (n & Hinv & Heq).
  fold m in Hinv, Heq. rewrite Heq.
  rewrite (loading_inv_outstanding n m Hinv).
  by destruct Hinv as (_ & -> & _).
Qed.

Lemma loading_is_busy_without_errors_witness :
  CVAssetLoader.loading
    (CVAssetLoader.assetLoader
       (CVAssetLoader.run
          [CVAssetLoader.ItemStart "ewer.obj";
           CVAssetLoader.ItemStart "ewer.jpg";
           CVAssetLoader.ItemEnd "ewer.obj"]
          CVAssetLoader.initial))
  = true.
Proof.
  refine (eq_trans
            (loading_is_busy_without_errors
               [CVAssetLoader.ItemStart "ewer.obj";
                CVAssetLoader.ItemStart "ewer.jpg";
                CVAssetLoader.ItemEnd "ewer.obj"] eq_refl eq_refl) _).
  reflexivity.
Defined.

(** X22.  After an error while loads are outstanding, the loading
    output stays false for as long as the queue does not run empty:
    neither the loads still in flight nor loads started in the meantime
    turn it on again. *)
Theorem loading_stays_off_after_error
    (es es' : list CVAssetLoader.item_event) (url : string) :
  CVAssetLoader.well_formed 0 es = true ->
  let m := CVAssetLoader.run es CVAssetLoader.initial in
  0 < CVAssetLoader.outstanding m ->
  CVAssetLoader.never_idle (CVAssetLoader.outstanding m) es' = true ->
  CVAssetLoader.loading
    (CVAssetLoader.assetLoader
       (CVAssetLoader.run es' (CVAssetLoader.itemError url m)))
  = false.
Proof.
  intros Hwf m Hout Hbusy.
  destruct (loading_inv_run es 0 CVAssetLoader.initial Hwf loading_inv_initial)
    as (n & Hinv).
  fold m in Hinv. rewrite (loading_inv_outstanding n m Hinv) in Hout, Hbusy.
  apply (loading_off_run es' n); [done|done| |done].
  by apply loading_inv_itemError.
Qed.

Lemma loading_stays_off_after_error_witness :
  CVAssetLoader.loading
    (CVAssetLoader.assetLoader
       (CVAssetLoader.run
          [CVAssetLoader.ItemStart "ewer-normals.jpg";
           CVAssetLoader.ItemEnd "ewer.obj"]
          (CVAssetLoader.itemError "ewer.jpg"
             (CVAssetLoader.run
                [CVAssetLoader.ItemStart "ewer.obj";
                 CVAssetLoader.ItemStart "ewer.jpg"]
                CVAssetLoader.initial))))
  = false.
Proof.
  apply (loading_stays_off_after_error
           [CVAssetLoader.ItemStart "ewer.obj";
            CVAssetLoader.ItemStart "ewer.jpg"]
           [CVAssetLoader.ItemStart "ewer-normals.jpg";
            CVAssetLoader.ItemEnd "ewer.obj"]
           "ewer.jpg"); [reflexivity|cbn; lia|reflexivity].
Defined.


(** ** The document view's lifecycle *)

Section Lifecycle.

Import DocumentView.

Lemma documentChain_app cs : forall current cs',
  documentChain current (cs ++ cs')
  = documentChain current cs ≫= fun c => documentChain c cs'.
Proof.
  induction cs as [|c cs IH]; intros current cs'; simpl; [done|].
  destruct c; try apply IH. case_bool_decide; [apply IH|done].
Qed.

Lemma featuresChain_app cs : forall current cs',
  featuresChain current (cs ++ cs')
  = featuresChain current cs ≫= fun c => featuresChain c cs'.
Proof.
  induction cs as [|c cs IH]; intros current cs'; simpl; [done|].
  destruct c; try apply IH. case_bool_decide; [apply IH|done].
Qed.

Lemma subscriptions_app cs : forall open cs',
  subscriptions open (cs ++ cs') = subscriptions (subscriptions open cs) cs'.
Proof.
  induction cs as [|c cs IH]; intros open cs'; simpl; [done|].
  destruct c; apply IH.
Qed.

Lemma view_inv_initial : view_inv false None initial.
Proof. by repeat split. Qed.

Lemma scene_follows_document_apply v s :
  activeScene v = activeDocument v ≫= setup ->
  activeScene (apply v s) = activeDocument (apply v s) ≫= setup.
Proof.
  intros Hinv. destruct s as [[document|]| |previous next]; cbn.
  - destruct (setup document) as [scene|] eqn:Hsetup; cbn; by rewrite ?Hsetup.
  - done.
  - unfold disconnected. cbn.
    destruct (activeDocument v) as [document|] eqn:Hdocument; cbn.
    + destruct (activeScene v); reflexivity.
    + by rewrite Hdocument.
  - done.
Qed.

Lemma view_inv_connected active a v :
  view_inv false active v -> view_inv true a (connected a v).
Proof.
  intros (Hdoc & Hscene & Hdocs & Hfeatures & Hsubs).
  rewrite Hdoc in Hscene, Hdocs. cbn in Hscene. rewrite Hscene in Hfeatures.
  destruct a as [document|]; cbn.
  - destruct (setup document) as [scene|] eqn:Hsetup; cbn;
      unfold view_inv; cbn;
      rewrite ?documentChain_app, ?featuresChain_app, ?subscriptions_app,
        ?Hdocs, ?Hfeatures, ?Hsubs; cbn;
      rewrite ?bool_decide_eq_true_2 by done; by rewrite ?Hsetup.
  - unfold view_inv; cbn.
    rewrite ?documentChain_app, ?featuresChain_app, ?subscriptions_app,
      ?Hdoc, ?Hscene, ?Hdocs, ?Hfeatures, ?Hsubs. by cbn.
Qed.

Lemma view_inv_disconnected active v :
  view_inv true active v -> view_inv false None (disconnected v).
Proof.
  intros (Hdoc & Hscene & Hdocs & Hfeatures & Hsubs).
  cbn in Hdoc, Hsubs. rewrite Hdoc in Hscene, Hdocs.
  unfold view_inv, disconnected. cbn. rewrite Hdoc.
  destruct active as [document|]; cbn in Hscene; cbn.
  - rewrite Hscene in *.
    destruct (setup document) as [scene|] eqn:Hsetup; cbn;
      rewrite ?documentChain_app, ?featuresChain_app, ?subscriptions_app,
        ?Hdocs, ?Hfeatures, ?Hsubs; cbn;
      by rewrite ?bool_decide_eq_true_2 by done.
  - rewrite ?documentChain_app, ?featuresChain_app, ?subscriptions_app,
      ?Hdoc, ?Hscene, ?Hdocs, ?Hfeatures, ?Hsubs. cbn. by rewrite ?Hscene.
Qed.

Lemma view_inv_event active next v :
  view_inv true active v ->
  view_inv true next (onActiveDocumentEvent active next v).
Proof.
  intros (Hdoc & Hscene & Hdocs & Hfeatures & Hsubs).
  cbn in Hdoc. rewrite Hdoc in *. unfold view_inv; cbn.
  rewrite !documentChain_app, !featuresChain_app, !subscriptions_app.
  rewrite Hdocs, Hfeatures, Hsubs, Hscene. cbn.
  by rewrite !bool_decide_eq_true_2.
Qed.

Lemma view_inv_apply isConnected active v s rest :
  lifecycle isConnected active (s :: rest) = true ->
  view_inv isConnected active v ->
  exists isConnected' active',
    lifecycle isConnected' active' rest = true
    /\ view_inv isConnected' active' (apply v s).
Proof.
  intros Hlife Hinv.
  destruct s as [a| |previous next]; simpl in Hlife.
  - destruct isConnected; [discriminate|]. simpl in Hlife.
    exists true, a. split; [done|]. by apply (view_inv_connected active).
  - destruct isConnected; [|discriminate]. simpl in Hlife.
    exists false, None. split; [done|]. by apply (view_inv_disconnected active).
  - destruct isConnected; [|discriminate]. simpl in Hlife.
    apply andb_true_iff in Hlife as [Hprevious Hlife].
    apply bool_decide_eq_true_1 in Hprevious. subst previous.
    exists true, next. split; [done|]. by apply view_inv_event.
Qed.

Lemma view_inv_run steps : forall isConnected active v rest,
  lifecycle isConnected active (steps ++ rest) = true ->
  view_inv isConnected active v ->
  exists isConnected' active',
    lifecycle isConnected' active' rest = true
    /\ view_inv isConnected' active' (run steps v).
Proof.
  induction steps as [|s steps IH]; intros isConnected active v rest Hlife Hinv.
  - by exists isConnected, active.
  - destruct (view_inv_apply isConnected active v s (steps ++ rest) Hlife Hinv)
      as (c' & a' & Hlife' & Hinv').
    apply (IH c' a' (apply v s) rest Hlife' Hinv').
Qed.

End Lifecycle.

(** X23.  Whatever sequence of [connected], [disconnected] and
    active-document events a new view goes through, in any order, its
    active scene is the setup of its active document, and it has none
    when it has no active document. *)
Theorem document_view_scene_follows_document
    (steps : list DocumentView.step) :
  let v := DocumentView.run steps DocumentView.initial in
  DocumentView.activeScene v
  = DocumentView.activeDocument v ≫= DocumentView.setup.
Proof.
  cbv zeta. unfold DocumentView.run.
  assert (Hgen : forall v,
    DocumentView.activeScene v
    = DocumentView.activeDocument v ≫= DocumentView.setup ->
    DocumentView.activeScene (fold_left DocumentView.apply steps v)
    = DocumentView.activeDocument (fold_left DocumentView.apply steps v)
      ≫= DocumentView.setup).
  { induction steps as [|s steps IH]; intros v Hv; simpl; [done|].
    apply IH. by apply scene_follows_document_apply. }
  by apply Hgen.
Qed.

(** X24.  Along a lifecycle (connected and disconnected in turn, events
    only while connected, each naming the document active before it),
    the hook calls of a view are chained: every [onActiveDocument] and
    every [onActiveFeatures] call names as previous what the call of
    that kind before it named as next, and the last one names what the
    view holds; at most one provider subscription is open.  When the
    lifecycle ends with [disconnected], the view holds no document and
    no scene, both chains end at nothing, and no subscription is left
    open. *)
Theorem document_view_calls_are_chained (steps : list DocumentView.step) :
  DocumentView.lifecycle false None steps = true ->
  let v := DocumentView.run steps DocumentView.initial in
  DocumentView.documentChain None (DocumentView.calls v)
  = Some (DocumentView.activeDocument v)
  /\ DocumentView.featuresChain None (DocumentView.calls v)
     = Some (DocumentView.activeScene v)
  /\ DocumentView.subscriptions 0 (DocumentView.calls v) <= 1
  /\ (forall steps',
        steps = steps' ++ [DocumentView.Disconnected] ->
        DocumentView.activeDocument v = None
        /\ DocumentView.activeScene v = None
        /\ DocumentView.subscriptions 0 (DocumentView.calls v) = 0).
Proof.
  intros Hlife v.
  assert (Hlife' : DocumentView.lifecycle false None (steps ++ []) = true)
    by by rewrite app_nil_r.
  destruct (view_inv_run steps false None DocumentView.initial [] Hlife'
              view_inv_initial)
    as (c & a & _ & Hdoc & Hscene & Hdocs & Hfeatures & Hsubs).
  fold v in Hdoc, Hscene, Hdocs, Hfeatures, Hsubs.
  split; [done|]. split; [done|]. split; [rewrite Hsubs; destruct c; lia|].
  intros steps' ->.
  destruct (view_inv_run steps' false None DocumentView.initial
              [DocumentView.Disconnected] Hlife view_inv_initial)
    as (c' & a' & Hlast & Hinv').
  simpl in Hlast. destruct c'; [|discriminate].
  apply view_inv_disconnected in Hinv'.
  assert (Hv : v = DocumentView.disconnected
                     (DocumentView.run steps' DocumentView.initial)).
  { subst v. unfold DocumentView.run. by rewrite fold_left_app. }
  rewrite <- Hv in Hinv'.
  destruct Hinv' as (Hdoc' & Hscene' & _ & _ & Hsubs').
  cbn in Hdoc', Hsubs'. by rewrite Hscene', Hdoc'.
Qed.

Lemma document_view_calls_are_chained_witness :
  let first := {| DocumentView.document_id := 1;
                  DocumentView.setup :=
                    Some {| DocumentView.setup_id := 10 |} |} in
  let second := {| DocumentView.document_id := 2;
                   DocumentView.setup := None |} in
  DocumentView.subscriptions 0
    (DocumentView.calls
       (DocumentView.run
          [DocumentView.Connected (Some first);
           DocumentView.ActiveDocumentEvent (Some first) (Some second);
           DocumentView.Disconnected]
          DocumentView.initial))
  = 0.
Proof.
  cbv zeta.
  destruct (document_view_calls_are_chained
              [DocumentView.Connected
                 (Some {| DocumentView.document_id := 1;
                          DocumentView.setup :=
                            Some {| DocumentView.setup_id := 10 |} |});
               DocumentView.ActiveDocumentEvent
                 (Some {| DocumentView.document_id := 1;
                          DocumentView.setup :=
                            Some {| DocumentView.setup_id := 10 |} |})
                 (Some {| DocumentView.document_id := 2;
                          DocumentView.setup := None |});
               DocumentView.Disconnected])
    as (_ & _ & _ & Hend); [reflexivity|].
  destruct (Hend
              [DocumentView.Connected
                 (Some {| DocumentView.document_id := 1;
                          DocumentView.setup :=
                            Some {| DocumentView.setup_id := 10 |} |});
               DocumentView.ActiveDocumentEvent
                 (Some {| DocumentView.document_id := 1;
                          DocumentView.setup :=
                            Some {| DocumentView.setup_id := 10 |} |})
                 (Some {| DocumentView.document_id := 2;
                          DocumentView.setup := None |})]
              eq_refl) as (_ & _ & Hsubs).
  exact Hsubs.
Defined.

Lemma load_returns_undefined_iff_witness :
  Derivative.requests
    (Derivative.load Sample.material Sample.loadingManager None
       (Sample.derivative [Sample.colorAsset]))
  = [].
Proof.
  destruct (load_returns_undefined_iff Sample.material Sample.loadingManager
              None (Sample.derivative [Sample.colorAsset]))
    as [_ Hnothing].
  apply Hnothing. reflexivity.
Defined.

Lemma load_keeps_identity_and_assets_witness :
  Derivative.set_boundingBox
    (Derivative.set_model (Sample.derivative [Sample.modelAsset])
       Sample.object)
    (THREE.expandByObject THREE.makeEmpty Sample.object)
  = Derivative.this
      (Derivative.load Sample.material Sample.loadingManager None
         (Sample.derivative [Sample.modelAsset])).
Proof.
  destruct (load_keeps_identity_and_assets Sample.material
              Sample.loadingManager None
              (Sample.derivative [Sample.modelAsset]))
    as (_ & _ & _ & _ & Hthis).
  apply Hthis. reflexivity.
Defined.

Lemma loadDocumentData_only_valid_witness :
  CVAssetLoaderRequests.loadDocumentData
    (fun relative base => String.append base relative)
    {| CVAssetLoaderRequests.jsonLoader url := JS.Resolved url;
       CVAssetLoaderRequests.validator json :=
         String.eqb json "https://host/document.json";
       CVAssetLoaderRequests.modelLoader _ := JS.Pending;
       CVAssetLoaderRequests.geometryLoader _ := JS.Pending;
       CVAssetLoaderRequests.textureLoader _ := JS.Pending |}
    "https://host/" "scene.json"
  = JS.Rejected "invalid document data, validation failed".
Proof.
  apply (proj1 (proj2 (loadDocumentData_only_valid
                         (fun relative base => String.append base relative)
                         {| CVAssetLoaderRequests.jsonLoader url :=
                              JS.Resolved url;
                            CVAssetLoaderRequests.validator json :=
                              String.eqb json "https://host/document.json";
                            CVAssetLoaderRequests.modelLoader _ := JS.Pending;
                            CVAssetLoaderRequests.geometryLoader _ :=
                              JS.Pending;
                            CVAssetLoaderRequests.textureLoader _ :=
                              JS.Pending |}
                         "https://host/" "scene.json"))).
  right. exists "https://host/scene.json". by repeat split.
Defined.
